(** * NYC crime data pipeline: the cleaning pass and the resumable downloader

    A shallow embedding of [src/clean_data.py] ([clean_2024_data]) and of
    [src/scripts/download_2024_robust.py] ([download_2024_crime_data_robust]),
    with the properties of the ingest-and-clean pipeline proved on it.

    Documents are Python dicts keyed by field name, modelled as [gmap string _];
    a MongoDB collection is the list of its documents in insertion order (the
    order [find()] streams them in).  The store-assigned [_id] is left out: no
    line of the two programs reads it. *)

From Stdlib Require Import ZArith Bool Ascii String List.
From Stdlib Require Import Floats.PrimFloat Floats.SpecFloat Floats.FloatOps.
From stdpp Require Import base decidable countable list strings gmap.

Set Warnings "-inexact-float".
Set Default Proof Using "Type".

Local Open Scope string_scope.
Local Open Scope list_scope.

(** ** Values *)

(** What the ingest writes for the essential fields is JSON text or JSON null
    (the data model types them as textual); a key can also be absent. *)
Inductive raw_value : Type :=
  | RNull
  | RStr (s : string).

(** A cleaned document additionally holds parsed coordinates. *)
Inductive value : Type :=
  | VNull
  | VStr (s : string)
  | VFloat (f : float).

Definition of_raw (v : raw_value) : value :=
  match v with
  | RNull => VNull
  | RStr s => VStr s
  end.

#[global] Instance raw_value_eq_dec : EqDecision raw_value.
Proof. solve_decision. Defined.

#[global] Instance raw_value_countable : Countable raw_value.
Proof.
  refine (inj_countable'
            (fun v => match v with RNull => None | RStr s => Some s end)
            (fun o => match o with None => RNull | Some s => RStr s end) _).
  by intros [].
Defined.

Abbreviation raw_record := (gmap string raw_value).
Abbreviation document := (gmap string value).

(** Python truthiness of a value read from a raw document: [None] and the
    empty string are falsy. *)
Definition truthy (v : raw_value) : bool :=
  match v with
  | RNull => false
  | RStr s => negb (String.eqb s "")
  end.

(** [record.get(k)]: [None] when the key is absent. *)
Definition get (r : raw_record) (k : string) : raw_value :=
  default RNull (r !! k).

(** [record.get(k, d)]: the default only replaces an absent key. *)
Definition get_default (r : raw_record) (k : string) (d : raw_value) : raw_value :=
  default d (r !! k).

(** ** Python's [float] on text *)

(** [float(s)] on a [str] either yields a double or raises [ValueError].  The
    cleaning pass is stated over any such conversion. *)
Class FloatOfStr := float_of_str : string -> option float.

(** A concrete conversion for ASCII input, used to run the scenarios: blanks
    stripped at both ends, an optional sign, then [inf], [infinity], [nan]
    (any case) or a decimal numeral with optional fraction and exponent,
    underscores allowed between digits; the decimal value is rounded to the
    nearest binary64, ties to even. *)
Module PyFloat.

Definition is_space (c : ascii) : bool :=
  let n := nat_of_ascii c in
  (n =? 32)%nat || ((9 <=? n)%nat && (n <=? 13)%nat).

Definition is_digit (c : ascii) : bool :=
  let n := nat_of_ascii c in (48 <=? n)%nat && (n <=? 57)%nat.

Definition digit_val (c : ascii) : Z := Z.of_nat (nat_of_ascii c - 48).

Definition lower (c : ascii) : ascii :=
  let n := nat_of_ascii c in
  if (65 <=? n)%nat && (n <=? 90)%nat then ascii_of_nat (n + 32) else c.

Fixpoint lstrip (l : list ascii) : list ascii :=
  match l with
  | c :: l' => if is_space c then lstrip l' else l
  | [] => []
  end.

Definition strip (l : list ascii) : list ascii :=
  rev (lstrip (rev (lstrip l))).

(** An underscore must sit between two digits. *)
Fixpoint underscores_ok (prev : option ascii) (l : list ascii) : bool :=
  match l with
  | [] => true
  | c :: l' =>
      if Ascii.eqb c "_" then
        match prev, l' with
        | Some p, n :: _ => is_digit p && is_digit n && underscores_ok (Some c) l'
        | _, _ => false
        end
      else underscores_ok (Some c) l'
  end.

Definition drop_underscores (l : list ascii) : list ascii :=
  List.filter (fun c => negb (Ascii.eqb c "_")) l.

(** The longest prefix of digits, as (digits read, their value, rest). *)
Fixpoint digits (acc : Z) (n : nat) (l : list ascii) : nat * Z * list ascii :=
  match l with
  | c :: l' =>
      if is_digit c then digits (10 * acc + digit_val c) (S n) l'
      else (n, acc, l)
  | [] => (n, acc, [])
  end.

Definition split_sign (l : list ascii) : bool * list ascii :=
  match l with
  | c :: l' =>
      if Ascii.eqb c "-" then (true, l')
      else if Ascii.eqb c "+" then (false, l')
      else (false, l)
  | [] => (false, [])
  end.

(** [m * 10 ^ e], correctly rounded to binary64. *)
Definition of_decimal (neg : bool) (m e : Z) : float :=
  match m with
  | Zpos p =>
      if (0 <=? e)%Z then
        let n := (Zpos p * 10 ^ e)%Z in
        SF2Prim (binary_normalize prec emax (if neg then (- n)%Z else n) 0 false)
      else
        let '(q, e', l) :=
          SFdiv_core_binary prec emax (Zpos p) 0 (Z.pow 10 (- e)) 0 in
        SF2Prim (binary_round_aux prec emax neg q e' l)
  | _ => if neg then (-0)%float else 0%float
  end.

Definition exponent (l : list ascii) : option Z :=
  match l with
  | [] => Some 0%Z
  | c :: l' =>
      if Ascii.eqb (lower c) "e" then
        let '(neg, l1) := split_sign l' in
        match digits 0 0 l1 with
        | (S _, v, []) => Some (if neg then (- v)%Z else v)
        | _ => None
        end
      else None
  end.

Definition numeral (neg : bool) (l : list ascii) : option float :=
  let '(ni, vi, l1) := digits 0 0 l in
  let '(nf, v, l2) :=
    match l1 with
    | c :: l1' => if Ascii.eqb c "." then digits vi 0 l1' else (0%nat, vi, l1)
    | [] => (0%nat, vi, [])
    end in
  if (ni + nf =? 0)%nat then None
  else
    match exponent l2 with
    | Some e => Some (of_decimal neg v (e - Z.of_nat nf))
    | None => None
    end.

Definition parse (s : string) : option float :=
  let l := strip (list_ascii_of_string s) in
  if negb (underscores_ok None l) then None
  else
    let '(neg, body) := split_sign (drop_underscores l) in
    let word := string_of_list_ascii (List.map lower body) in
    if String.eqb word "inf" || String.eqb word "infinity" then
      Some (if neg then neg_infinity else infinity)
    else if String.eqb word "nan" then Some nan
    else numeral neg body.

End PyFloat.

#[global] Instance py_float_of_str : FloatOfStr := PyFloat.parse.

(** ** The document store *)

(** The clean collection: its documents, and whether the unique index on
    [cmplnt_num] has been built.  The other indexes are not unique and change
    no result. *)
Record collection : Type := Collection {
  docs : list document;
  unique_cmplnt_num : bool
}.

Record db : Type := Db {
  complaints_2024 : list raw_record;
  complaints_2024_clean : collection
}.

Inductive exn : Type :=
  | BulkWriteError
  | DuplicateKeyError
  | ZeroDivisionError.

(** The key a document has in the index on [cmplnt_num]: an absent field is
    indexed as null. *)
Definition index_key (d : document) : value :=
  default VNull (d !! "cmplnt_num").

(** Key equality of the index: text by content, numbers by value with NaN
    equal to itself. *)
Definition same_key (a b : value) : bool :=
  match a, b with
  | VNull, VNull => true
  | VStr s, VStr t => String.eqb s t
  | VFloat x, VFloat y => PrimFloat.eqb x y || (is_nan x && is_nan y)
  | _, _ => false
  end.

Definition key_taken (c : collection) (d : document) : bool :=
  unique_cmplnt_num c && existsb (fun d' => same_key (index_key d') (index_key d)) (docs c).

(** [delete_many({})]: every document goes, the indexes stay. *)
Definition delete_many (c : collection) : collection :=
  {| docs := []; unique_cmplnt_num := unique_cmplnt_num c |}.

(** [insert_many(batch)], ordered: documents are written one by one and the
    first one that violates the unique index raises, the earlier ones staying
    written. *)
Fixpoint insert_many (c : collection) (batch : list document) : collection * option exn :=
  match batch with
  | [] => (c, None)
  | d :: batch' =>
      if key_taken c d then (c, Some BulkWriteError)
      else insert_many {| docs := docs c ++ [d];
                          unique_cmplnt_num := unique_cmplnt_num c |} batch'
  end.

Fixpoint has_duplicate_key (l : list document) : bool :=
  match l with
  | [] => false
  | d :: l' => existsb (fun d' => same_key (index_key d) (index_key d')) l'
               || has_duplicate_key l'
  end.

(** [create_index([("cmplnt_num", 1)], unique=True)]: refused when two
    documents already share a key. *)
Definition create_unique_index (c : collection) : collection * option exn :=
  if unique_cmplnt_num c then (c, None)
  else if has_duplicate_key (docs c) then (c, Some DuplicateKeyError)
  else ({| docs := docs c; unique_cmplnt_num := true |}, None).

Definition count_documents (c : collection) : nat := length (docs c).

(** ** [clean_2024_data] *)

Inductive verdict : Type :=
  | Missing
  | Duplicate
  | InvalidCoords
  | Accept (lat lon : float).

(** The state of the loop over [source_collection.find()]. *)
Record pass_state : Type := PassState {
  seen_ids : gset raw_value;
  records_to_insert : list document;
  skipped_missing : nat;
  skipped_invalid_coords : nat;
  skipped_duplicate : nat;
  processed : nat;
  clean_collection : collection
}.

Definition batch_limit : nat := 5000.
#[global] Arguments batch_limit : simpl never.

(** [40.4 <= lat <= 41.0 and -74.4 <= lon <= -73.6] on doubles. *)
Definition in_nyc (lat lon : float) : bool :=
  ((40.4 <=? lat) && (lat <=? 41.0) && (-74.4 <=? lon) && (lon <=? -73.6))%float.

Section Clean.
Context `{FloatOfStr}.

(** [float(v)]: [None] raises [TypeError], text goes through the parser and
    raises [ValueError] when it fails; both are caught by the same handler. *)
Definition py_float (v : raw_value) : option float :=
  match v with
  | RNull => None
  | RStr s => float_of_str s
  end.

(** Lines 44-80: the checks in the order the loop body makes them, each
    [continue] being a verdict. *)
Definition classify (seen : gset raw_value) (record : raw_record) : verdict :=
  let cmplnt_id := get record "cmplnt_num" in
  let cmplnt_dt := get record "cmplnt_fr_dt" in
  let boro := get record "boro_nm" in
  let lat_str := get record "latitude" in
  let lon_str := get record "longitude" in
  let ofns := get record "ofns_desc" in
  let law_cat := get record "law_cat_cd" in
  if negb (forallb truthy [cmplnt_id; cmplnt_dt; boro; lat_str; lon_str; ofns; law_cat])
  then Missing
  else if bool_decide (boro = RStr "(null)") || bool_decide (boro = RStr "")
  then Missing
  else if bool_decide (cmplnt_id ∈ seen)
  then Duplicate
  else
    match py_float lat_str with
    | None => InvalidCoords
    | Some lat =>
        match py_float lon_str with
        | None => InvalidCoords
        | Some lon => if negb (in_nyc lat lon) then InvalidCoords else Accept lat lon
        end
    end.

(** Lines 86-95. *)
Definition cleaned_record (record : raw_record) (lat lon : float) : document :=
  <["cmplnt_num" := of_raw (get record "cmplnt_num")]>
 (<["cmplnt_fr_dt" := of_raw (get record "cmplnt_fr_dt")]>
 (<["cmplnt_fr_tm" := of_raw (get_default record "cmplnt_fr_tm" (RStr "00:00:00"))]>
 (<["boro_nm" := of_raw (get record "boro_nm")]>
 (<["latitude" := VFloat lat]>
 (<["longitude" := VFloat lon]>
 (<["ofns_desc" := of_raw (get record "ofns_desc")]>
 (<["law_cat_cd" := of_raw (get record "law_cat_cd")]> ∅))))))).

(** One iteration of the loop body (lines 39-102); an exception of
    [insert_many] leaves the loop with the state as it stands. *)
Definition step (st : pass_state) (record : raw_record) : pass_state * option exn :=
  let st := {| seen_ids := seen_ids st;
               records_to_insert := records_to_insert st;
               skipped_missing := skipped_missing st;
               skipped_invalid_coords := skipped_invalid_coords st;
               skipped_duplicate := skipped_duplicate st;
               processed := processed st + 1;
               clean_collection := clean_collection st |} in
  match classify (seen_ids st) record with
  | Missing =>
      ({| seen_ids := seen_ids st;
          records_to_insert := records_to_insert st;
          skipped_missing := skipped_missing st + 1;
          skipped_invalid_coords := skipped_invalid_coords st;
          skipped_duplicate := skipped_duplicate st;
          processed := processed st;
          clean_collection := clean_collection st |}, None)
  | Duplicate =>
      ({| seen_ids := seen_ids st;
          records_to_insert := records_to_insert st;
          skipped_missing := skipped_missing st;
          skipped_invalid_coords := skipped_invalid_coords st;
          skipped_duplicate := skipped_duplicate st + 1;
          processed := processed st;
          clean_collection := clean_collection st |}, None)
  | InvalidCoords =>
      ({| seen_ids := seen_ids st;
          records_to_insert := records_to_insert st;
          skipped_missing := skipped_missing st;
          skipped_invalid_coords := skipped_invalid_coords st + 1;
          skipped_duplicate := skipped_duplicate st;
          processed := processed st;
          clean_collection := clean_collection st |}, None)
  | Accept lat lon =>
      let seen := {[ get record "cmplnt_num" ]} ∪ seen_ids st in
      let buffer := records_to_insert st ++ [cleaned_record record lat lon] in
      if (batch_limit <=? length buffer)%nat then
        let '(c, e) := insert_many (clean_collection st) buffer in
        ({| seen_ids := seen;
            records_to_insert := match e with None => [] | Some _ => buffer end;
            skipped_missing := skipped_missing st;
            skipped_invalid_coords := skipped_invalid_coords st;
            skipped_duplicate := skipped_duplicate st;
            processed := processed st;
            clean_collection := c |}, e)
      else
        ({| seen_ids := seen;
            records_to_insert := buffer;
            skipped_missing := skipped_missing st;
            skipped_invalid_coords := skipped_invalid_coords st;
            skipped_duplicate := skipped_duplicate st;
            processed := processed st;
            clean_collection := clean_collection st |}, None)
  end.

(** [for record in source_collection.find(): ...] *)
Fixpoint pass_loop (records : list raw_record) (st : pass_state) : pass_state * option exn :=
  match records with
  | [] => (st, None)
  | record :: records' =>
      match step st record with
      | (st', None) => pass_loop records' st'
      | (st', Some e) => (st', Some e)
      end
  end.

End Clean.

(** What the summary prints from (lines 126-131). *)
Record counters : Type := Counters {
  original_count : nat;
  examined : nat;
  final_count : nat;
  missing : nat;
  invalid_coordinates : nat;
  duplicate : nat
}.

Record report : Type := Report {
  counts : counters;
  removed_pct : float;
  retention_pct : float
}.

Inductive result (A : Type) : Type :=
  | Ok (a : A)
  | Raise (e : exn).
Arguments Ok {A} a.
Arguments Raise {A} e.

(** Python's [a / b] on integers: the quotient rounded to the nearest double,
    [ZeroDivisionError] when [b] is zero. *)
Definition truediv (a b : Z) : option float :=
  if (b =? 0)%Z then None
  else
    let neg := xorb (a <? 0)%Z (b <? 0)%Z in
    match a with
    | Z0 => Some (if neg then (-0)%float else 0%float)
    | _ =>
        let '(q, e, l) := SFdiv_core_binary prec emax (Z.abs a) 0 (Z.abs b) 0 in
        Some (SF2Prim (binary_round_aux prec emax neg q e l))
    end.

Definition initial_state (c : collection) : pass_state :=
  {| seen_ids := ∅;
     records_to_insert := [];
     skipped_missing := 0;
     skipped_invalid_coords := 0;
     skipped_duplicate := 0;
     processed := 0;
     clean_collection := c |}.

Section CleanRun.
Context `{FloatOfStr}.

(** Lines 18-108: count, clear the target, stream the source, flush the
    remainder, count the target. *)
Definition clean_pass (d : db) : db * result counters :=
  let source := complaints_2024 d in
  let original := length source in
  let target := delete_many (complaints_2024_clean d) in
  match pass_loop source (initial_state target) with
  | (st, Some e) => (Db source (clean_collection st), Raise e)
  | (st, None) =>
      let '(c, e) :=
        match records_to_insert st with
        | [] => (clean_collection st, None)
        | _ :: _ => insert_many (clean_collection st) (records_to_insert st)
        end in
      match e with
      | Some e => (Db source c, Raise e)
      | None =>
          (Db source c,
           Ok {| original_count := original;
                 examined := processed st;
                 final_count := count_documents c;
                 missing := skipped_missing st;
                 invalid_coordinates := skipped_invalid_coords st;
                 duplicate := skipped_duplicate st |})
      end
  end.

(** Lines 126-133: the two percentages divide by [original_count]. *)
Definition summary (c : counters) : result report :=
  match truediv (Z.of_nat (original_count c) - Z.of_nat (final_count c))
                (Z.of_nat (original_count c)) with
  | None => Raise ZeroDivisionError
  | Some removed =>
      match truediv (Z.of_nat (final_count c)) (Z.of_nat (original_count c)) with
      | None => Raise ZeroDivisionError
      | Some kept =>
          Ok {| counts := c;
                removed_pct := (removed * 100)%float;
                retention_pct := (kept * 100)%float |}
      end
  end.

(** The whole function: the pass, the unique index (line 114), the summary.
    The distribution report that follows (lines 135-173) only reads the
    clean collection. *)
Definition clean_2024_data (d : db) : db * result report :=
  match clean_pass d with
  | (d1, Raise e) => (d1, Raise e)
  | (d1, Ok c) =>
      let '(target, e) := create_unique_index (complaints_2024_clean d1) in
      let d2 := Db (complaints_2024 d1) target in
      match e with
      | Some e => (d2, Raise e)
      | None => (d2, summary c)
      end
  end.

End CleanRun.

(** ** [download_2024_crime_data_robust] *)

(** What one call of [client_api.get] does: raise, or return a page. *)
Inductive api_reply : Type :=
  | ApiError
  | ApiResults (results : list raw_record).

(** The calls the run makes on the outside world, in order. *)
Inductive event : Type :=
  | Get (offset : nat)
  | InsertMany (n : nat)
  | Sleep (seconds : nat)
  | CreateIndexes.

Record download_state : Type := DownloadState {
  collection_2024 : list raw_record;
  offset : nat;
  total_imported : nat;
  calls : nat;
  trace : list event
}.

Inductive status : Type :=
  | Declined
  | Completed
  | Running.

Definition batch_size : nat := 5000.
Definition max_retries : nat := 5.
#[global] Arguments batch_size : simpl never.

Section Download.
(** The remote source: its reply to the n-th request of the run. *)
Variable api : nat -> api_reply.

Definition log (st : download_state) (es : list event) : download_state :=
  {| collection_2024 := collection_2024 st;
     offset := offset st;
     total_imported := total_imported st;
     calls := calls st;
     trace := trace st ++ es |}.

(** Lines 64-71: the request at the current offset. *)
Definition request (st : download_state) : download_state * api_reply :=
  ({| collection_2024 := collection_2024 st;
      offset := offset st;
      total_imported := total_imported st;
      calls := calls st + 1;
      trace := trace st ++ [Get (offset st)] |},
   api (calls st)).

(** Lines 79-81. *)
Definition store_page (st : download_state) (results : list raw_record) : download_state :=
  {| collection_2024 := collection_2024 st ++ results;
     offset := offset st + length results;
     total_imported := total_imported st + length results;
     calls := calls st;
     trace := trace st ++ [InsertMany (length results)] |}.

(** Lines 60-104, the retry loop of one page, on [n = max_retries -
    retry_count]: [None] is [success = False], [Some results] is success
    with the page fetched. *)
Fixpoint fetch_page (n retry_count : nat) (st : download_state)
  : download_state * option (list raw_record) :=
  match n with
  | 0 => (st, None)
  | S n' =>
      match request st with
      | (st1, ApiResults results) =>
          match results with
          | [] => (st1, Some [])
          | _ :: _ =>
              let st2 := store_page st1 results in
              if (length results <? batch_size)%nat then (st2, Some results)
              else (log st2 [Sleep 1], Some results)
          end
      | (st1, ApiError) =>
          let retry_count := retry_count + 1 in
          if (retry_count <? max_retries)%nat
          then fetch_page n' retry_count (log st1 [Sleep (retry_count * 5)])
          else (st1, None)
      end
  end.

(** Lines 56-110, the loop over pages; [fuel] bounds the pages fetched. *)
Fixpoint download_loop (fuel : nat) (st : download_state) : download_state * status :=
  match fuel with
  | 0 => (st, Running)
  | S fuel' =>
      match fetch_page max_retries 0 st with
      | (st', None) => (st', Completed)
      | (st', Some results) =>
          match results with
          | [] => (st', Completed)
          | _ :: _ =>
              if (length results <? batch_size)%nat then (st', Completed)
              else download_loop fuel' st'
          end
      end
  end.

(** The whole function on the raw collection; [confirm] is whether the
    operator answers yes to the prompt of line 26. *)
Definition download_2024_crime_data_robust
    (confirm : bool) (fuel : nat) (raw : list raw_record) : download_state * status :=
  let existing_count := length raw in
  let idle := {| collection_2024 := raw; offset := 0; total_imported := existing_count;
                 calls := 0; trace := [] |} in
  if (0 <? existing_count)%nat && negb confirm then (idle, Declined)
  else
    let start := if (0 <? existing_count)%nat then existing_count else 0 in
    let st := {| collection_2024 := raw; offset := start;
                 total_imported := existing_count; calls := 0; trace := [] |} in
    let '(st', s) := download_loop fuel st in
    match s with
    | Completed =>
        (if (existing_count <? total_imported st')%nat
         then log st' [CreateIndexes] else st', Completed)
    | _ => (st', s)
    end.

End Download.

(** ** Predicates the properties are stated with *)

Definition essential_fields : list string :=
  ["cmplnt_num"; "cmplnt_fr_dt"; "boro_nm"; "latitude"; "longitude";
   "ofns_desc"; "law_cat_cd"].

(** The missing-field rule: an essential field is falsy, or the borough is a
    null marker. *)
Definition missing_fields (r : raw_record) : bool :=
  negb (forallb (fun k => truthy (get r k)) essential_fields)
  || bool_decide (get r "boro_nm" = RStr "(null)")
  || bool_decide (get r "boro_nm" = RStr "").

(** Everything the clean collection and the buffer hold, oldest first. *)
Definition stored (st : pass_state) : list document :=
  docs (clean_collection st) ++ records_to_insert st.

Definition keyed (d : document) (s : string) : Prop :=
  d !! "cmplnt_num" = Some (VStr s).

Definition located (d : document) : Prop :=
  exists lat lon,
    d !! "latitude" = Some (VFloat lat) /\ d !! "longitude" = Some (VFloat lon) /\
    in_nyc lat lon = true.

(** The loop invariant of the pass. *)
Inductive pass_inv (st : pass_state) : Prop :=
  | PassInv (ids : list string)
      (inv_keyed : Forall2 keyed (stored st) ids)
      (inv_nodup : NoDup ids)
      (inv_seen : forall v, v ∈ seen_ids st <-> exists s, s ∈ ids /\ v = RStr s)
      (inv_count : processed st = length (stored st) + skipped_missing st
                                  + skipped_invalid_coords st + skipped_duplicate st)
      (inv_located : Forall located (stored st)).

(** What the properties observe of a loop state: all of it but how the
    accepted documents are split between collection and buffer, and the index. *)
Definition view (st : pass_state)
  : gset raw_value * list document * (nat * nat * nat * nat) :=
  (seen_ids st, stored st,
   (skipped_missing st, skipped_invalid_coords st, skipped_duplicate st, processed st)).

Section CleanPredicates.
Context `{FloatOfStr}.

(** The coordinate rule: a coordinate does not parse, or the point is
    outside the box. *)
Definition coordinates_invalid (r : raw_record) : bool :=
  match py_float (get r "latitude"), py_float (get r "longitude") with
  | Some lat, Some lon => negb (in_nyc lat lon)
  | _, _ => true
  end.

Definition passes_other_checks (r : raw_record) : bool :=
  negb (missing_fields r) && negb (coordinates_invalid r).

(** The loop state once the records of [l] have been streamed into an
    emptied target. *)
Definition after (target : collection) (l : list raw_record) : pass_state :=
  fst (pass_loop l (initial_state (delete_many target))).

End CleanPredicates.

(** The events of [k] failed attempts in a row at [offset], the first of them
    made with [retry_count] failures already counted: each is the request and
    the wait that follows it. *)
Fixpoint backoff (offset retry_count k : nat) : list event :=
  match k with
  | 0 => []
  | S k' =>
      Get offset :: Sleep ((retry_count + 1) * 5) :: backoff offset (retry_count + 1) k'
  end.

(** The state [k] failed attempts later: only the call count and the trace
    have moved. *)
Definition retried (st : download_state) (retry_count k : nat) : download_state :=
  {| collection_2024 := collection_2024 st;
     offset := offset st;
     total_imported := total_imported st;
     calls := calls st + k;
     trace := trace st ++ backoff (offset st) retry_count k |}.

(** ** Scenarios *)

Definition complaint (id date boro lat lon ofns law : string) : raw_record :=
  <["cmplnt_num" := RStr id]>
 (<["cmplnt_fr_dt" := RStr date]>
 (<["boro_nm" := RStr boro]>
 (<["latitude" := RStr lat]>
 (<["longitude" := RStr lon]>
 (<["ofns_desc" := RStr ofns]>
 (<["law_cat_cd" := RStr law]> ∅)))))).

Definition empty_clean : collection := {| docs := []; unique_cmplnt_num := false |}.

Definition queens_1 : raw_record :=
  complaint "1" "2024-01-01" "QUEENS" "40.7" "-73.8" "THEFT" "FELONY".
Definition seven_first : raw_record :=
  complaint "7" "2024-01-02" "BRONX" "40.85" "-73.9" "ASSAULT" "FELONY".
Definition seven_again : raw_record :=
  complaint "7" "2024-01-03" "BROOKLYN" "40.65" "-73.95" "THEFT" "MISDEMEANOR".
Definition null_borough : raw_record :=
  complaint "2" "2024-01-01" "(null)" "99.9" "-73.8" "THEFT" "FELONY".
Definition far_north : raw_record :=
  complaint "3" "2024-01-02" "BRONX" "99.9" "-73.8" "THEFT" "FELONY".
Definition no_offence : raw_record :=
  complaint "4" "2024-01-02" "BRONX" "40.85" "-73.9" "" "FELONY".

Definition start : pass_state := initial_state empty_clean.

(** A source that fails four times and then serves [page], and one that is
    down. *)
Definition flaky (page : list raw_record) (n : nat) : api_reply :=
  if (n <? 4)%nat then ApiError
  else if (n =? 4)%nat then ApiResults page
  else ApiResults [].

Definition down (n : nat) : api_reply := ApiError.

Definition fresh : download_state :=
  {| collection_2024 := []; offset := 0; total_imported := 0; calls := 0; trace := [] |}.

(** ** Predicates of the further properties *)

Definition clean_keys : gset string :=
  list_to_set ["cmplnt_num"; "cmplnt_fr_dt"; "cmplnt_fr_tm"; "boro_nm";
               "latitude"; "longitude"; "ofns_desc"; "law_cat_cd"].

Definition text_fields : list string :=
  ["cmplnt_num"; "cmplnt_fr_dt"; "boro_nm"; "ofns_desc"; "law_cat_cd"].

Section Provenance.
Context `{FloatOfStr}.

(** [doc] is what lines 86-95 build from the raw record [r], which passes
    the missing-field check, with its coordinates parsed and in the box. *)
Definition built_from (doc : document) (r : raw_record) : Prop :=
  exists lat lon : float,
    missing_fields r = false /\
    py_float (get r "latitude") = Some lat /\
    py_float (get r "longitude") = Some lon /\
    in_nyc lat lon = true /\
    doc = cleaned_record r lat lon.

(** The identifiers carried by the records of [l] that pass the missing-field
    and coordinate checks. *)
Definition valid_ids (l : list raw_record) : gset raw_value :=
  list_to_set ((fun r => get r "cmplnt_num")
                 <$> filter (fun r => passes_other_checks r = true) l).

End Provenance.


(** The events of the loop over pages, with the longest wait it makes. *)
Definition paging_event (e : event) : Prop :=
  match e with
  | Get _ | InsertMany _ => True
  | Sleep seconds => seconds <= 20
  | CreateIndexes => False
  end.

(** ** [check_data_quality.py] *)

(** The fields of the missing-value check (line 21). *)
Definition quality_fields : list string :=
  ["cmplnt_num"; "cmplnt_fr_dt"; "cmplnt_fr_tm"; "boro_nm";
   "latitude"; "longitude"; "ofns_desc"; "law_cat_cd"].

(** [count_documents(query)] on the raw collection. *)
Definition count_where (query : raw_record -> bool) (coll : list raw_record) : nat :=
  length (List.filter query coll).

(** [{field: None}] matches a null or absent field, [{field: ""}] the empty
    string. *)
Definition null_count (coll : list raw_record) (field : string) : nat :=
  count_where (fun r => bool_decide (get r field = RNull)) coll.

Definition empty_count (coll : list raw_record) (field : string) : nat :=
  count_where (fun r => bool_decide (get r field = RStr "")) coll.

(** [{field: {"$lt": bound}}] with a text bound: only text matches, and it
    is compared as text, byte by byte. *)
Definition text_lt (v : raw_value) (bound : string) : bool :=
  match v with
  | RStr s => String.ltb s bound
  | RNull => false
  end.

Definition text_gt (v : raw_value) (bound : string) : bool :=
  match v with
  | RStr s => String.ltb bound s
  | RNull => false
  end.

(** The [$or] query of lines 44-51. *)
Definition flagged_coordinates (r : raw_record) : bool :=
  text_lt (get r "latitude") "40.4"
  || text_gt (get r "latitude") "41.0"
  || text_lt (get r "longitude") "-74.4"
  || text_gt (get r "longitude") "-73.6".

(** Lines 56-60: the groups of [cmplnt_num] with more than one document. *)
Definition duplicate_groups (coll : list raw_record) : list raw_value :=
  List.filter
    (fun k => (1 <? count_where (fun r => bool_decide (get r "cmplnt_num" = k)) coll)%nat)
    (remove_dups ((fun r => get r "cmplnt_num") <$> coll)).

Record quality_report : Type := QualityReport {
  total : nat;
  missing_by_field : list (string * nat * float);
  issues : list string;
  invalid_coords : nat;
  invalid_coords_pct : float;
  dup_count : nat
}.

(** Line 30: [(missing / total * 100) if total > 0 else 0]. *)
Definition guarded_pct (n total : nat) : option float :=
  if (0 <? total)%nat then
    match truediv (Z.of_nat n) (Z.of_nat total) with
    | Some q => Some (q * 100)%float
    | None => None
    end
  else Some 0%float.

(** Lines 26-36 for one field: its missing count and percentage. *)
Definition field_check (coll : list raw_record) (field : string)
  : option (string * nat * float) :=
  let missing := null_count coll field + empty_count coll field in
  match guarded_pct missing (length coll) with
  | Some pct => Some (field, missing, pct)
  | None => None
  end.

(** Lines 26-36: the loop over the fields. *)
Fixpoint field_checks (coll : list raw_record) (fields : list string)
  : option (list (string * nat * float)) :=
  match fields with
  | [] => Some []
  | field :: fields' =>
      match field_check coll field with
      | None => None
      | Some row =>
          match field_checks coll fields' with
          | None => None
          | Some rows => Some (row :: rows)
          end
      end
  end.

(** Lines 13-63 of the script: the counts it reports, or the exception it
    stops with. *)
Definition check_data_quality (coll : list raw_record) : result quality_report :=
  let total := length coll in
  match field_checks coll quality_fields with
  | None => Raise ZeroDivisionError
  | Some rows =>
      let issues :=
        List.map (fun row : string * nat * float => fst (fst row))
                 (List.filter (fun row : string * nat * float => (0 <? snd (fst row))%nat)
                              rows) in
      let invalid_coords := count_where flagged_coordinates coll in
      match truediv (Z.of_nat invalid_coords) (Z.of_nat total) with
      | None => Raise ZeroDivisionError
      | Some q =>
          Ok {| total := total;
                missing_by_field := rows;
                issues := issues;
                invalid_coords := invalid_coords;
                invalid_coords_pct := (q * 100)%float;
                dup_count := length (duplicate_groups coll) |}
      end
  end.

(** A page of full size, a source that always serves it, and a small remote
    data set. *)
Definition full_page : list raw_record := replicate 5000 queens_1.

Definition endless (n : nat) : api_reply := ApiResults full_page.


Example parse_decimal : PyFloat.parse "40.7" = Some 40.7%float.
Proof. vm_compute. reflexivity. Qed.

Example parse_signed_blanks : PyFloat.parse " -73.8 " = Some (-73.8)%float.
Proof. vm_compute. reflexivity. Qed.

Example parse_exponent : PyFloat.parse "1_0.5E-1" = Some 1.05%float.
Proof. vm_compute. reflexivity. Qed.

Example parse_rounds_to_nearest : PyFloat.parse "40.399999999999999" = Some 40.4%float.
Proof. vm_compute. reflexivity. Qed.

Example parse_overflow : PyFloat.parse "1e400" = Some infinity.
Proof. vm_compute. reflexivity. Qed.

Example parse_rejects :
  List.map PyFloat.parse [""; "abc"; "1e"; "."; "1_"; "4 0"] = [None; None; None; None; None; None].
Proof. vm_compute. reflexivity. Qed.

Example truediv_third : truediv 1 3 = Some 0.3333333333333333%float.
Proof. vm_compute. reflexivity. Qed.

(** Scenario A. *)
Example scenario_accept : classify ∅ queens_1 = Accept 40.7 (-73.8).
Proof. vm_compute. reflexivity. Qed.

(** Scenarios B, C and D in one run. *)
Example scenario_run :
  snd (clean_2024_data
         (Db [seven_first; seven_again; null_borough; far_north] empty_clean))
  = Ok {| counts := Counters 4 4 1 1 1 1; removed_pct := 75; retention_pct := 25 |}.
Proof. vm_compute. reflexivity. Qed.

(** Scenario E. *)
Example scenario_retry :
  let st := fst (fetch_page (flaky [queens_1]) max_retries 0 fresh) in
  trace st = [Get 0; Sleep 5; Get 0; Sleep 10; Get 0; Sleep 15; Get 0; Sleep 20;
              Get 0; InsertMany 1]
  /\ collection_2024 st = [queens_1].
Proof. split; reflexivity. Qed.

(** * Properties of the cleaning pass *)

Section CleanFacts.
Context `{FloatOfStr}.

Lemma same_key_str (a b : string) : same_key (VStr a) (VStr b) = true <-> a = b.
Proof. simpl. apply String.eqb_eq. Qed.

Lemma keyed_index_key (d : document) (s : string) : keyed d s -> index_key d = VStr s.
Proof. unfold keyed, index_key. by intros ->. Qed.

Lemma existsb_keyed_fresh (l : list document) (ids : list string) (d : document) (s : string) :
  Forall2 keyed l ids -> keyed d s -> s ∉ ids ->
  existsb (fun d' => same_key (index_key d') (index_key d)) l = false.
Proof.
  intros Hl Hd Hs. induction Hl as [|d' s' l ids Hk _ IH]; [done|].
  cbn [existsb]. rewrite IH by set_solver. rewrite orb_false_r.
  rewrite (keyed_index_key _ _ Hk), (keyed_index_key _ _ Hd).
  apply not_true_is_false. rewrite same_key_str. set_solver.
Qed.

Lemma insert_many_ok (batch : list document) :
  forall (c : collection) (ids : list string),
    Forall2 keyed (docs c ++ batch) ids -> NoDup ids ->
    insert_many c batch
    = ({| docs := docs c ++ batch; unique_cmplnt_num := unique_cmplnt_num c |}, None).
Proof.
  induction batch as [|d batch IH]; intros c ids Hk Hnd.
  - simpl. rewrite app_nil_r. by destruct c.
  - cbn [insert_many].
    assert (key_taken c d = false) as ->.
    { unfold key_taken. destruct (unique_cmplnt_num c); [cbn [andb]|done].
      apply Forall2_app_inv_l in Hk as (k1 & k2 & Hk1 & Hk2 & ->).
      inversion Hk2 as [|? s ? k2' Hd Hk2' ]; subst.
      apply NoDup_app in Hnd as (_ & Hdisj & _).
      eapply existsb_keyed_fresh; [done..|].
      intros Hin. apply (Hdisj s Hin). set_solver. }
    rewrite (IH _ ids); simpl.
    + by rewrite <- app_assoc.
    + by rewrite <- app_assoc.
    + done.
Qed.

Lemma has_duplicate_key_keyed (l : list document) (ids : list string) :
  Forall2 keyed l ids -> NoDup ids -> has_duplicate_key l = false.
Proof.
  intros Hl. induction Hl as [|d s l ids Hk Hl IH]; [done|].
  intros Hnd. apply NoDup_cons in Hnd as [Hs Hnd]. cbn [has_duplicate_key].
  rewrite IH by done. rewrite orb_false_r.
  clear IH Hnd. induction Hl as [|d' s' l ids Hk' _ IH]; [done|].
  cbn [existsb]. rewrite IH by set_solver. rewrite orb_false_r.
  rewrite (keyed_index_key _ _ Hk), (keyed_index_key _ _ Hk').
  apply not_true_is_false. rewrite same_key_str. set_solver.
Qed.

(** The verdict as a decision list over the three rules. *)
Lemma classify_unfold (seen : gset raw_value) (r : raw_record) :
  classify seen r =
    if missing_fields r then Missing
    else if bool_decide (get r "cmplnt_num" ∈ seen) then Duplicate
    else match py_float (get r "latitude"), py_float (get r "longitude") with
         | Some lat, Some lon => if in_nyc lat lon then Accept lat lon else InvalidCoords
         | _, _ => InvalidCoords
         end.
Proof.
  unfold classify, missing_fields, essential_fields. cbn [forallb].
  destruct (negb _); [done|]. cbn [orb].
  destruct (bool_decide _ || bool_decide _); [done|].
  destruct (bool_decide (_ ∈ _)); [done|].
  destruct (py_float (get r "latitude")) as [lat|]; [|done].
  destruct (py_float (get r "longitude")) as [lon|]; [|done].
  by destruct (in_nyc lat lon).
Qed.

Lemma classify_accept (seen : gset raw_value) (r : raw_record) (lat lon : float) :
  classify seen r = Accept lat lon <->
  missing_fields r = false /\ (get r "cmplnt_num" ∉ seen) /\
  py_float (get r "latitude") = Some lat /\ py_float (get r "longitude") = Some lon /\
  in_nyc lat lon = true.
Proof.
  rewrite classify_unfold.
  destruct (missing_fields r); [intuition congruence|].
  case_bool_decide; [intuition congruence|].
  destruct (py_float (get r "latitude")) as [lat'|]; [|intuition congruence].
  destruct (py_float (get r "longitude")) as [lon'|]; [|intuition congruence].
  destruct (in_nyc lat' lon') eqn:Hbox; intuition congruence.
Qed.

Lemma classify_duplicate (seen : gset raw_value) (r : raw_record) :
  classify seen r = Duplicate <->
  missing_fields r = false /\ (get r "cmplnt_num" ∈ seen).
Proof.
  rewrite classify_unfold.
  destruct (missing_fields r); [intuition congruence|].
  case_bool_decide; [intuition congruence|].
  destruct (py_float (get r "latitude")) as [lat'|]; [|intuition congruence].
  destruct (py_float (get r "longitude")) as [lon'|]; [|intuition congruence].
  destruct (in_nyc lat' lon'); cbn [negb]; intuition congruence.
Qed.

Lemma classify_invalid (seen : gset raw_value) (r : raw_record) :
  classify seen r = InvalidCoords <->
  missing_fields r = false /\ (get r "cmplnt_num" ∉ seen) /\ coordinates_invalid r = true.
Proof.
  rewrite classify_unfold. unfold coordinates_invalid.
  destruct (missing_fields r); [intuition congruence|].
  case_bool_decide; [intuition congruence|].
  destruct (py_float (get r "latitude")) as [lat'|]; [|intuition congruence].
  destruct (py_float (get r "longitude")) as [lon'|]; [|intuition congruence].
  destruct (in_nyc lat' lon'); cbn [negb]; intuition congruence.
Qed.

Lemma classify_missing (seen : gset raw_value) (r : raw_record) :
  classify seen r = Missing <-> missing_fields r = true.
Proof.
  rewrite classify_unfold.
  destruct (missing_fields r); [intuition congruence|].
  case_bool_decide; [intuition congruence|].
  destruct (py_float (get r "latitude")) as [lat'|]; [|intuition congruence].
  destruct (py_float (get r "longitude")) as [lon'|]; [|intuition congruence].
  destruct (in_nyc lat' lon'); cbn [negb]; intuition congruence.
Qed.

Lemma classify_accept_ex (seen : gset raw_value) (r : raw_record) :
  missing_fields r = false -> get r "cmplnt_num" ∉ seen ->
  coordinates_invalid r = false ->
  exists lat lon, classify seen r = Accept lat lon.
Proof.
  intros Hm Hfresh Hgood.
  destruct (classify seen r) as [| | |lat lon] eqn:Hv.
  - apply classify_missing in Hv. congruence.
  - apply classify_duplicate in Hv as [_ ?]. done.
  - apply classify_invalid in Hv as (_ & _ & ?). congruence.
  - by exists lat, lon.
Qed.

(** A falsy essential field makes the record a missing one. *)
Lemma missing_fields_falsy (r : raw_record) (k : string) :
  k ∈ essential_fields -> truthy (get r k) = false -> missing_fields r = true.
Proof.
  intros Hk Hf. unfold missing_fields.
  assert (forallb (fun k => truthy (get r k)) essential_fields = false) as ->; [|done].
  apply not_true_is_false. intros Hall.
  rewrite forallb_forall in Hall. apply list_elem_of_In in Hk.
  specialize (Hall k Hk). congruence.
Qed.

Lemma not_missing_id (r : raw_record) :
  missing_fields r = false -> exists s, get r "cmplnt_num" = RStr s.
Proof.
  unfold missing_fields, essential_fields. cbn [forallb].
  destruct (get r "cmplnt_num") as [|s]; [done|]. by exists s.
Qed.

Lemma cleaned_record_keyed (r : raw_record) (lat lon : float) (s : string) :
  get r "cmplnt_num" = RStr s -> keyed (cleaned_record r lat lon) s.
Proof.
  intros Hid. unfold keyed, cleaned_record. rewrite lookup_insert_eq. by rewrite Hid.
Qed.

Lemma cleaned_record_latitude (r : raw_record) (lat lon : float) :
  cleaned_record r lat lon !! "latitude" = Some (VFloat lat).
Proof.
  unfold cleaned_record. rewrite !lookup_insert_ne by done. by rewrite lookup_insert_eq.
Qed.

Lemma cleaned_record_longitude (r : raw_record) (lat lon : float) :
  cleaned_record r lat lon !! "longitude" = Some (VFloat lon).
Proof.
  unfold cleaned_record. rewrite !lookup_insert_ne by done. by rewrite lookup_insert_eq.
Qed.

Ltac case_flush :=
  match goal with
  | |- context [(batch_limit <=? ?n)%nat] => destruct (batch_limit <=? n)%nat
  end.

(** What one iteration does to the counters and the seen-set, whatever the
    state. *)
Lemma step_counters (st : pass_state) (r : raw_record) :
  let st' := fst (step st r) in
  processed st' = processed st + 1 /\
  match classify (seen_ids st) r with
  | Missing =>
      skipped_missing st' = skipped_missing st + 1 /\
      skipped_duplicate st' = skipped_duplicate st /\
      skipped_invalid_coords st' = skipped_invalid_coords st /\
      seen_ids st' = seen_ids st /\ stored st' = stored st
  | Duplicate =>
      skipped_missing st' = skipped_missing st /\
      skipped_duplicate st' = skipped_duplicate st + 1 /\
      skipped_invalid_coords st' = skipped_invalid_coords st /\
      seen_ids st' = seen_ids st /\ stored st' = stored st
  | InvalidCoords =>
      skipped_missing st' = skipped_missing st /\
      skipped_duplicate st' = skipped_duplicate st /\
      skipped_invalid_coords st' = skipped_invalid_coords st + 1 /\
      seen_ids st' = seen_ids st /\ stored st' = stored st
  | Accept _ _ =>
      skipped_missing st' = skipped_missing st /\
      skipped_duplicate st' = skipped_duplicate st /\
      skipped_invalid_coords st' = skipped_invalid_coords st /\
      seen_ids st' = {[ get r "cmplnt_num" ]} ∪ seen_ids st
  end.
Proof.
  unfold step. cbn [seen_ids].
  destruct (classify (seen_ids st) r) as [| | |lat lon]; cbn; try done.
  case_flush; [|done].
  by destruct (insert_many _ _) as [c [e|]].
Qed.

(** Under the invariant no write is refused, and the accepted document is
    the one thing added to what is stored. *)
Lemma step_effect (st : pass_state) (r : raw_record) :
  pass_inv st ->
  exists st',
    step st r = (st', None) /\
    unique_cmplnt_num (clean_collection st') = unique_cmplnt_num (clean_collection st) /\
    stored st' = stored st ++ match classify (seen_ids st) r with
                              | Accept lat lon => [cleaned_record r lat lon]
                              | _ => []
                              end.
Proof.
  intros [ids Hk Hnd Hseen _ _]. unfold step. cbn [seen_ids].
  destruct (classify (seen_ids st) r) as [| | |lat lon] eqn:Hc;
    try (eexists; split; [done|]; split; [done|]; by rewrite app_nil_r).
  apply classify_accept in Hc as (Hm & Hfresh & _).
  destruct (not_missing_id r Hm) as [s Hs].
  assert (s ∉ ids) as Hnew.
  { intros Hin. apply Hfresh, Hseen. exists s. by rewrite Hs. }
  cbn [records_to_insert clean_collection].
  case_flush.
  - erewrite (insert_many_ok _ _ (ids ++ [s])).
    + eexists; split; [done|]; split; [done|].
      unfold stored. cbn. by rewrite app_nil_r, app_assoc.
    + rewrite app_assoc. apply Forall2_app; [done|].
      constructor; [|constructor]. by apply cleaned_record_keyed.
    + apply NoDup_app. split; [done|]. split; [|apply NoDup_singleton].
      intros x Hx Hx'. apply list_elem_of_singleton in Hx'. by subst.
  - eexists; split; [done|]; split; [done|].
    unfold stored. cbn. by rewrite app_assoc.
Qed.

Lemma step_inv (st : pass_state) (r : raw_record) :
  pass_inv st -> pass_inv (fst (step st r)).
Proof.
  intros Hinv. destruct (step_effect st r Hinv) as (st' & Hst & _ & Hstored).
  pose proof (step_counters st r) as [Hp Hcnt]. rewrite Hst in Hp, Hcnt |- *.
  cbn [fst] in *. destruct Hinv as [ids Hk Hnd Hseen Hcount Hloc].
  destruct (classify (seen_ids st) r) as [| | |lat lon] eqn:Hc.
  1-3: destruct Hcnt as (Hm & Hd & Hi & Hs & _); rewrite app_nil_r in Hstored;
       apply (PassInv _ ids); rewrite ?Hstored, ?Hs; [done|done|done|lia|done].
  destruct Hcnt as (Hm & Hd & Hi & Hs).
  apply classify_accept in Hc as (Hmiss & Hfresh & _ & _ & Hbox).
  destruct (not_missing_id r Hmiss) as [s Hid].
  assert (s ∉ ids) as Hnew.
  { intros Hin. apply Hfresh, Hseen. exists s. by rewrite Hid. }
  apply (PassInv _ (ids ++ [s])); rewrite ?Hstored.
  - apply Forall2_app; [done|]. constructor; [|constructor].
    by apply cleaned_record_keyed.
  - apply NoDup_app. split; [done|]. split; [|apply NoDup_singleton].
    intros x Hx Hx'. apply list_elem_of_singleton in Hx'. by subst.
  - intros v. rewrite Hs, Hid, elem_of_union, elem_of_singleton, Hseen.
    split.
    + intros [->|(x & Hx & ->)].
      * exists s. split; [|done]. apply elem_of_app. right. by apply list_elem_of_singleton.
      * exists x. split; [|done]. apply elem_of_app. by left.
    + intros (x & Hx & ->). apply elem_of_app in Hx as [Hx|Hx]; [right; eauto|].
      apply list_elem_of_singleton in Hx. left. by subst.
  - rewrite length_app. cbn [length]. lia.
  - apply Forall_app. split; [done|]. constructor; [|constructor].
    exists lat, lon. by rewrite cleaned_record_latitude, cleaned_record_longitude.
Qed.

Lemma initial_inv (c : collection) : pass_inv (initial_state (delete_many c)).
Proof.
  apply (PassInv _ []).
  - constructor.
  - apply NoDup_nil_2.
  - intros v. cbn. split; [by intros ?%elem_of_empty|].
    intros (s & Hs & _). by apply elem_of_nil in Hs.
  - done.
  - constructor.
Qed.

Lemma pass_inv_view (st1 st2 : pass_state) :
  view st1 = view st2 -> pass_inv st1 -> pass_inv st2.
Proof.
  unfold view. intros Hv [ids Hk Hnd Hseen Hcount Hloc].
  injection Hv as Hs Hst Hm Hi Hd Hp.
  apply (PassInv _ ids); rewrite <- ?Hs, <- ?Hst, <- ?Hm, <- ?Hi, <- ?Hd, <- ?Hp; done.
Qed.

Lemma step_view (st1 st2 : pass_state) (r : raw_record) :
  pass_inv st1 -> view st1 = view st2 ->
  view (fst (step st1 r)) = view (fst (step st2 r)).
Proof.
  intros Hinv1 Hv. pose proof (pass_inv_view _ _ Hv Hinv1) as Hinv2.
  destruct (step_effect st1 r Hinv1) as (st1' & E1 & _ & S1).
  destruct (step_effect st2 r Hinv2) as (st2' & E2 & _ & S2).
  pose proof (step_counters st1 r) as [P1 C1].
  pose proof (step_counters st2 r) as [P2 C2].
  rewrite E1 in P1, C1 |- *. rewrite E2 in P2, C2 |- *. cbn [fst] in *.
  unfold view in *. injection Hv as Hs Hst Hm Hi Hd Hp.
  rewrite <- Hs in C2, S2. rewrite S1, S2, P1, P2.
  destruct (classify (seen_ids st1) r).
  1-3: destruct C1 as (-> & -> & -> & -> & _), C2 as (-> & -> & -> & -> & _);
       congruence.
  destruct C1 as (-> & -> & -> & ->), C2 as (-> & -> & -> & ->). congruence.
Qed.

(** The loop never leaves by an exception and keeps its invariant. *)
Lemma pass_loop_inv (rs : list raw_record) :
  forall st, pass_inv st ->
    exists st',
      pass_loop rs st = (st', None) /\ pass_inv st' /\
      unique_cmplnt_num (clean_collection st') = unique_cmplnt_num (clean_collection st).
Proof.
  induction rs as [|r rs IH]; intros st Hinv; [by exists st|].
  destruct (step_effect st r Hinv) as (st1 & E & Hu & _).
  pose proof (step_inv st r Hinv) as Hinv1. rewrite E in Hinv1. cbn [fst] in Hinv1.
  destruct (IH st1 Hinv1) as (st' & E' & Hinv' & Hu').
  exists st'. cbn [pass_loop]. rewrite E. split; [done|]. split; [done|]. congruence.
Qed.

Lemma pass_loop_app (l1 l2 : list raw_record) :
  forall st, pass_inv st ->
    pass_loop (l1 ++ l2) st = pass_loop l2 (fst (pass_loop l1 st)).
Proof.
  induction l1 as [|r l1 IH]; intros st Hinv; [done|].
  destruct (step_effect st r Hinv) as (st1 & E & _ & _).
  pose proof (step_inv st r Hinv) as Hinv1. rewrite E in Hinv1.
  cbn [app pass_loop]. rewrite E. by apply IH.
Qed.

Lemma pass_loop_view (rs : list raw_record) :
  forall st1 st2, pass_inv st1 -> view st1 = view st2 ->
    view (fst (pass_loop rs st1)) = view (fst (pass_loop rs st2)).
Proof.
  induction rs as [|r rs IH]; intros st1 st2 Hinv1 Hv; [done|].
  pose proof (pass_inv_view _ _ Hv Hinv1) as Hinv2.
  pose proof (step_view st1 st2 r Hinv1 Hv) as Hv'.
  pose proof (step_inv st1 r Hinv1) as Hinv1'.
  destruct (step_effect st1 r Hinv1) as (st1' & E1 & _ & _).
  destruct (step_effect st2 r Hinv2) as (st2' & E2 & _ & _).
  cbn [pass_loop]. rewrite E1, E2 in *. by apply IH.
Qed.

Lemma pass_loop_processed (rs : list raw_record) :
  forall st, pass_inv st ->
    processed (fst (pass_loop rs st)) = processed st + length rs.
Proof.
  induction rs as [|r rs IH]; intros st Hinv; [cbn; lia|].
  destruct (step_effect st r Hinv) as (st1 & E & _ & _).
  pose proof (step_inv st r Hinv) as Hinv1.
  pose proof (step_counters st r) as [Hp _]. rewrite E in Hinv1, Hp.
  cbn [pass_loop length]. rewrite E, IH by done. cbn [fst] in Hp. lia.
Qed.

Lemma after_spec (target : collection) (l : list raw_record) :
  pass_loop l (initial_state (delete_many target)) = (after target l, None) /\
  pass_inv (after target l) /\
  unique_cmplnt_num (clean_collection (after target l)) = unique_cmplnt_num target.
Proof.
  unfold after.
  destruct (pass_loop_inv l _ (initial_inv target)) as (st & -> & Hinv & Hu). done.
Qed.

(** The pass in closed form: the target ends up holding what the loop
    stored, and the counters are those of the final loop state. *)
Lemma clean_pass_spec (d : db) :
  let st := after (complaints_2024_clean d) (complaints_2024 d) in
  clean_pass d =
    (Db (complaints_2024 d)
        {| docs := stored st;
           unique_cmplnt_num := unique_cmplnt_num (complaints_2024_clean d) |},
     Ok {| original_count := length (complaints_2024 d);
           examined := processed st;
           final_count := length (stored st);
           missing := skipped_missing st;
           invalid_coordinates := skipped_invalid_coords st;
           duplicate := skipped_duplicate st |}).
Proof.
  intros st. subst st.
  destruct (after_spec (complaints_2024_clean d) (complaints_2024 d)) as (E & Hinv & Hu).
  unfold clean_pass. rewrite E.
  set (st := after _ _) in *. destruct Hinv as [ids Hk Hnd _ _ _].
  unfold stored in *.
  destruct (records_to_insert st) as [|x buf] eqn:Hbuf.
  - rewrite app_nil_r. unfold count_documents. rewrite <- Hu.
    by destruct (clean_collection st).
  - rewrite (insert_many_ok _ _ ids) by done. unfold count_documents. cbn [docs].
    by rewrite Hu.
Qed.

Lemma clean_2024_data_spec (d : db) :
  let st := after (complaints_2024_clean d) (complaints_2024 d) in
  clean_2024_data d =
    (Db (complaints_2024 d) {| docs := stored st; unique_cmplnt_num := true |},
     summary {| original_count := length (complaints_2024 d);
                examined := processed st;
                final_count := length (stored st);
                missing := skipped_missing st;
                invalid_coordinates := skipped_invalid_coords st;
                duplicate := skipped_duplicate st |}).
Proof.
  intros st. unfold clean_2024_data. rewrite clean_pass_spec. fold st.
  destruct (after_spec (complaints_2024_clean d) (complaints_2024 d))
    as (_ & [ids Hk Hnd _ _ _] & _). fold st in Hk.
  unfold create_unique_index. cbn [complaints_2024_clean complaints_2024 docs unique_cmplnt_num].
  destruct (unique_cmplnt_num (complaints_2024_clean d)); [done|].
  by rewrite (has_duplicate_key_keyed _ ids).
Qed.

Lemma after_snoc (target : collection) (l : list raw_record) (r : raw_record) :
  after target (l ++ [r]) = fst (step (after target l) r).
Proof.
  destruct (after_spec target l) as (E & Hinv & _).
  unfold after at 1. rewrite pass_loop_app by apply initial_inv.
  rewrite E. cbn [fst pass_loop].
  by destruct (step_effect _ r Hinv) as (st' & -> & _).
Qed.

Lemma after_app (target : collection) (l1 l2 : list raw_record) :
  after target (l1 ++ l2) = fst (pass_loop l2 (after target l1)).
Proof.
  unfold after at 1. rewrite pass_loop_app by apply initial_inv. done.
Qed.

(** The seen-set holds the identifiers of the records streamed so far that
    pass the other two checks, and nothing else. *)
Lemma seen_ids_pass_loop (l : list raw_record) :
  forall st v, pass_inv st ->
    v ∈ seen_ids (fst (pass_loop l st)) <->
    v ∈ seen_ids st \/
    exists r, r ∈ l /\ passes_other_checks r = true /\ get r "cmplnt_num" = v.
Proof.
  induction l as [|r l IH]; intros st v Hinv.
  { cbn. split; [by left|]. intros [?|(r & Hr & _)]; [done|]. by apply elem_of_nil in Hr. }
  destruct (step_effect st r Hinv) as (st1 & E & _ & _).
  pose proof (step_inv st r Hinv) as Hinv1.
  pose proof (step_counters st r) as [_ Hc].
  rewrite E in Hinv1, Hc. cbn [fst] in Hinv1, Hc.
  cbn [pass_loop]. rewrite E, (IH st1 v Hinv1).
  assert (v ∈ seen_ids st1 <->
          v ∈ seen_ids st \/ (passes_other_checks r = true /\ get r "cmplnt_num" = v))
    as ->.
  { unfold passes_other_checks.
    destruct (classify (seen_ids st) r) as [| | |lat lon] eqn:Hv.
    - destruct Hc as (_ & _ & _ & -> & _). apply classify_missing in Hv as ->.
      cbn. intuition congruence.
    - destruct Hc as (_ & _ & _ & -> & _). apply classify_duplicate in Hv as [_ Hin].
      intuition congruence.
    - destruct Hc as (_ & _ & _ & -> & _). apply classify_invalid in Hv as (-> & _ & ->).
      cbn. intuition congruence.
    - destruct Hc as (_ & _ & _ & ->).
      apply classify_accept in Hv as (-> & _ & Hlat & Hlon & Hbox).
      unfold coordinates_invalid. rewrite Hlat, Hlon, Hbox. cbn.
      rewrite elem_of_union, elem_of_singleton. intuition congruence. }
  split.
  - intros [[?|[? ?]]|(r' & Hr' & ? & ?)]; [by left| |].
    + right. exists r. split; [apply list_elem_of_here|done].
    + right. exists r'. split; [by apply list_elem_of_further|done].
  - intros [?|(r' & Hr' & ? & ?)]; [by left; left|].
    apply elem_of_cons in Hr' as [->|Hr']; [left; right; done|].
    right. exists r'. done.
Qed.

End CleanFacts.

Section CleanTheorems.
Context `{FloatOfStr}.

(** C1. Conservation law: whatever the raw store holds, the pass ends
    without an exception and the number of records examined is the number
    accepted plus the three rejection counters; every record is examined,
    the accepted count is the size of the clean collection, and each
    iteration charges a rejected record to one counter only. *)
Theorem conservation_law (d : db) :
  (exists c,
      snd (clean_pass d) = Ok c /\
      examined c = final_count c + missing c + invalid_coordinates c + duplicate c /\
      examined c = length (complaints_2024 d) /\
      final_count c = count_documents (complaints_2024_clean (fst (clean_pass d)))) /\
  (forall (st : pass_state) (r : raw_record),
      let st' := fst (step st r) in
      let rejected (s : pass_state) :=
        skipped_missing s + skipped_invalid_coords s + skipped_duplicate s in
      processed st' = processed st + 1 /\
      rejected st' = rejected st +
                     match classify (seen_ids st) r with Accept _ _ => 0 | _ => 1 end).
Proof.
  split.
  - rewrite clean_pass_spec. cbn [fst snd].
    destruct (after_spec (complaints_2024_clean d) (complaints_2024 d)) as (_ & Hinv & _).
    eexists. split; [done|]. cbn.
    split; [by destruct Hinv; lia|]. split; [|done].
    unfold after. rewrite pass_loop_processed by apply initial_inv. done.
  - intros st r. cbn zeta. pose proof (step_counters st r) as [Hp Hc].
    split; [done|].
    destruct (classify (seen_ids st) r); destruct Hc as (-> & -> & -> & _); lia.
Qed.

(** C2. The checks are made in the order missing field, duplicate,
    coordinates, and the first that matches decides: a record with a missing
    field is counted as missing only; otherwise one whose identifier has been
    seen is counted as duplicate only, whatever its coordinates; otherwise
    one with invalid coordinates is counted as that only; otherwise no
    rejection counter moves. *)
Theorem checks_in_order (st : pass_state) (r : raw_record) :
  let st' := fst (step st r) in
  (missing_fields r = true ->
     classify (seen_ids st) r = Missing /\
     skipped_missing st' = skipped_missing st + 1 /\
     skipped_duplicate st' = skipped_duplicate st /\
     skipped_invalid_coords st' = skipped_invalid_coords st) /\
  (missing_fields r = false -> get r "cmplnt_num" ∈ seen_ids st ->
     classify (seen_ids st) r = Duplicate /\
     skipped_missing st' = skipped_missing st /\
     skipped_duplicate st' = skipped_duplicate st + 1 /\
     skipped_invalid_coords st' = skipped_invalid_coords st) /\
  (missing_fields r = false -> get r "cmplnt_num" ∉ seen_ids st ->
   coordinates_invalid r = true ->
     classify (seen_ids st) r = InvalidCoords /\
     skipped_missing st' = skipped_missing st /\
     skipped_duplicate st' = skipped_duplicate st /\
     skipped_invalid_coords st' = skipped_invalid_coords st + 1) /\
  (missing_fields r = false -> get r "cmplnt_num" ∉ seen_ids st ->
   coordinates_invalid r = false ->
     (exists lat lon, classify (seen_ids st) r = Accept lat lon) /\
     skipped_missing st' = skipped_missing st /\
     skipped_duplicate st' = skipped_duplicate st /\
     skipped_invalid_coords st' = skipped_invalid_coords st).
Proof.
  cbn zeta. pose proof (step_counters st r) as [_ Hc].
  split; [|split; [|split]].
  - intros Hm. apply (classify_missing (seen_ids st)) in Hm.
    rewrite Hm in Hc. by destruct Hc as (-> & -> & -> & _).
  - intros Hm Hin. assert (classify (seen_ids st) r = Duplicate) as Hv.
    { by apply classify_duplicate. }
    rewrite Hv in Hc. by destruct Hc as (-> & -> & -> & _).
  - intros Hm Hin Hbad. assert (classify (seen_ids st) r = InvalidCoords) as Hv.
    { by apply classify_invalid. }
    rewrite Hv in Hc. by destruct Hc as (-> & -> & -> & _).
  - intros Hm Hin Hgood.
    destruct (classify_accept_ex (seen_ids st) r Hm Hin Hgood) as (lat & lon & Hv).
    rewrite Hv in Hc |- *. destruct Hc as (-> & -> & -> & _).
    split; [by exists lat, lon|done].
Qed.

(** C3. After a run no two documents of the clean collection share a
    [cmplnt_num], and the unique index on that field is in place. *)
Theorem clean_ids_unique (d : db) :
  let target := complaints_2024_clean (fst (clean_2024_data d)) in
  unique_cmplnt_num target = true /\
  forall (i j : nat) (a b : document),
    docs target !! i = Some a -> docs target !! j = Some b -> i <> j ->
    a !! "cmplnt_num" <> b !! "cmplnt_num".
Proof.
  rewrite clean_2024_data_spec. cbn [fst complaints_2024_clean docs unique_cmplnt_num].
  split; [done|]. intros i j a b Ha Hb Hij.
  destruct (after_spec (complaints_2024_clean d) (complaints_2024 d))
    as (_ & [ids Hk Hnd _ _ _] & _).
  destruct (Forall2_lookup_l _ _ _ _ _ Hk Ha) as (sa & Hsa & Hka).
  destruct (Forall2_lookup_l _ _ _ _ _ Hk Hb) as (sb & Hsb & Hkb).
  unfold keyed in *. rewrite Hka, Hkb. intros [=->].
  apply Hij. by eapply NoDup_lookup.
Qed.

(** C4, as amended. Every document of the clean collection holds its
    latitude and longitude as doubles, inside the box; and a record that has
    passed the missing-field and duplicate checks and whose latitude or
    longitude does not parse, or parses to a point outside the box, is
    counted as invalid coordinates and not stored. *)
Theorem coordinates_checked :
  (forall (d : db) (doc : document),
      doc ∈ docs (complaints_2024_clean (fst (clean_2024_data d))) ->
      exists lat lon : float,
        doc !! "latitude" = Some (VFloat lat) /\
        doc !! "longitude" = Some (VFloat lon) /\
        (40.4 <=? lat)%float = true /\ (lat <=? 41.0)%float = true /\
        (-74.4 <=? lon)%float = true /\ (lon <=? -73.6)%float = true) /\
  (forall (st : pass_state) (r : raw_record),
      missing_fields r = false ->
      get r "cmplnt_num" ∉ seen_ids st ->
      (py_float (get r "latitude") = None \/
       py_float (get r "longitude") = None \/
       exists lat lon : float,
         py_float (get r "latitude") = Some lat /\
         py_float (get r "longitude") = Some lon /\ in_nyc lat lon = false) ->
      let st' := fst (step st r) in
      classify (seen_ids st) r = InvalidCoords /\
      skipped_invalid_coords st' = skipped_invalid_coords st + 1 /\
      skipped_missing st' = skipped_missing st /\
      skipped_duplicate st' = skipped_duplicate st /\
      stored st' = stored st).
Proof.
  split.
  - intros d doc. rewrite clean_2024_data_spec. cbn [fst complaints_2024_clean docs].
    destruct (after_spec (complaints_2024_clean d) (complaints_2024 d))
      as (_ & [ids _ _ _ _ Hloc] & _).
    intros Hin. rewrite Forall_forall in Hloc.
    destruct (Hloc doc Hin) as (lat & lon & Hlat & Hlon & Hbox).
    exists lat, lon. unfold in_nyc in Hbox.
    apply andb_prop in Hbox as [Hbox ?]. apply andb_prop in Hbox as [Hbox ?].
    apply andb_prop in Hbox as [? ?]. done.
  - intros st r Hm Hfresh Hbad. cbn zeta.
    assert (coordinates_invalid r = true) as Hinvalid.
    { unfold coordinates_invalid.
      destruct Hbad as [->|[Hlon|(lat & lon & -> & -> & ->)]]; [done| |done].
      rewrite Hlon. by destruct (py_float (get r "latitude")). }
    assert (classify (seen_ids st) r = InvalidCoords) as Hv.
    { by apply classify_invalid. }
    pose proof (step_counters st r) as [_ Hc]. rewrite Hv in Hc.
    by destruct Hc as (-> & -> & -> & _ & ->).
Qed.

Lemma after_view (t1 t2 : collection) (l : list raw_record) :
  view (after t1 l) = view (after t2 l).
Proof. unfold after. by apply pass_loop_view; [apply initial_inv|]. Qed.

(** C5. The pass is idempotent: its result does not depend on what the
    clean collection held before, so running the function again on the
    store it left gives the same store, the same clean documents and the
    same counters and outcome. *)
Theorem clean_idempotent (d : db) :
  (forall target : collection,
      let d' := Db (complaints_2024 d) target in
      docs (complaints_2024_clean (fst (clean_pass d')))
      = docs (complaints_2024_clean (fst (clean_pass d))) /\
      snd (clean_pass d') = snd (clean_pass d)) /\
  clean_2024_data (fst (clean_2024_data d)) = clean_2024_data d.
Proof.
  split.
  - intros target. cbn zeta. rewrite !clean_pass_spec.
    cbn [fst snd complaints_2024 complaints_2024_clean docs].
    pose proof (after_view target (complaints_2024_clean d) (complaints_2024 d)) as Hv.
    unfold view in Hv. injection Hv as _ -> -> -> -> ->. done.
  - rewrite (clean_2024_data_spec (fst _)). rewrite !clean_2024_data_spec.
    cbn [fst snd complaints_2024 complaints_2024_clean].
    pose proof (after_view {| docs := stored (after (complaints_2024_clean d) (complaints_2024 d));
                              unique_cmplnt_num := true |}
                           (complaints_2024_clean d) (complaints_2024 d)) as Hv.
    unfold view in Hv. injection Hv as _ -> -> -> -> ->. done.
Qed.

(** C8, on the code. With an empty raw store the run raises
    [ZeroDivisionError] at the summary: the percentages are computed, with
    no guard on a zero count. *)
Theorem empty_store_raises (target : collection) :
  snd (clean_2024_data (Db [] target)) = Raise ZeroDivisionError.
Proof. by rewrite clean_2024_data_spec. Qed.

(** C9. The seen-set grows by the identifier of a record exactly when
    that record is accepted; and of two records that pass the other checks
    and share an identifier, the first of the store to carry it is accepted
    and stored, and the later one is counted as a duplicate and not stored. *)
Theorem duplicate_rule :
  (forall (st : pass_state) (r : raw_record),
      seen_ids (fst (step st r))
      = match classify (seen_ids st) r with
        | Accept _ _ => {[ get r "cmplnt_num" ]} ∪ seen_ids st
        | _ => seen_ids st
        end) /\
  (forall (target : collection) (l1 l2 : list raw_record) (r1 r2 : raw_record),
      passes_other_checks r1 = true ->
      passes_other_checks r2 = true ->
      get r1 "cmplnt_num" = get r2 "cmplnt_num" ->
      (forall r, r ∈ l1 -> passes_other_checks r = true ->
                 get r "cmplnt_num" <> get r1 "cmplnt_num") ->
      let before1 := after target l1 in
      let before2 := after target (l1 ++ r1 :: l2) in
      (exists lat lon,
          classify (seen_ids before1) r1 = Accept lat lon /\
          stored (after target (l1 ++ [r1]))
          = stored before1 ++ [cleaned_record r1 lat lon]) /\
      classify (seen_ids before2) r2 = Duplicate /\
      skipped_duplicate (after target ((l1 ++ r1 :: l2) ++ [r2]))
      = skipped_duplicate before2 + 1 /\
      stored (after target ((l1 ++ r1 :: l2) ++ [r2])) = stored before2).
Proof.
  split.
  - intros st r. pose proof (step_counters st r) as [_ Hc].
    destruct (classify (seen_ids st) r).
    1-3: by destruct Hc as (_ & _ & _ & -> & _).
    by destruct Hc as (_ & _ & _ & ->).
  - intros target l1 l2 r1 r2 H1 H2 Hid Hfirst. cbn zeta.
    unfold passes_other_checks in H1, H2.
    apply andb_prop in H1 as [Hm1 Hc1]. apply andb_prop in H2 as [Hm2 Hc2].
    apply negb_true_iff in Hm1, Hc1, Hm2, Hc2.
    destruct (after_spec target l1) as (_ & Hinv1 & _).
    assert (get r1 "cmplnt_num" ∉ seen_ids (after target l1)) as Hfresh.
    { unfold after. rewrite seen_ids_pass_loop by apply initial_inv.
      intros [Hin|(r & Hr & Hp & Heq)]; [by apply elem_of_empty in Hin|].
      by apply (Hfirst r). }
    destruct (classify_accept_ex _ r1 Hm1 Hfresh Hc1) as (lat & lon & Hv1).
    split.
    { exists lat, lon. split; [done|]. rewrite after_snoc.
      destruct (step_effect _ r1 Hinv1) as (st' & E & _ & Hst).
      rewrite E. cbn [fst]. by rewrite Hst, Hv1. }
    assert (get r2 "cmplnt_num" ∈ seen_ids (after target (l1 ++ r1 :: l2))) as Hseen.
    { unfold after. rewrite seen_ids_pass_loop by apply initial_inv. right.
      exists r1. split; [|split; [|done]].
      - apply elem_of_app. right. apply list_elem_of_here.
      - unfold passes_other_checks. by rewrite Hm1, Hc1. }
    assert (classify (seen_ids (after target (l1 ++ r1 :: l2))) r2 = Duplicate) as Hv2.
    { by apply classify_duplicate. }
    split; [done|]. rewrite after_snoc.
    pose proof (step_counters (after target (l1 ++ r1 :: l2)) r2) as [_ Hc].
    rewrite Hv2 in Hc. by destruct Hc as (_ & -> & _ & _ & ->).
Qed.

(** C10. A record in which one of the seven essential fields is the empty
    string (or null, or absent) is counted as missing and nothing else: the
    presence check is a truthiness check on every one of them. *)
Theorem empty_field_is_missing (st : pass_state) (r : raw_record) (k : string) :
  k ∈ essential_fields ->
  r !! k = Some (RStr "") \/ r !! k = Some RNull \/ r !! k = None ->
  let st' := fst (step st r) in
  classify (seen_ids st) r = Missing /\
  skipped_missing st' = skipped_missing st + 1 /\
  skipped_duplicate st' = skipped_duplicate st /\
  skipped_invalid_coords st' = skipped_invalid_coords st /\
  seen_ids st' = seen_ids st /\
  stored st' = stored st.
Proof.
  intros Hk Hfalsy. cbn zeta.
  assert (missing_fields r = true) as Hm.
  { apply (missing_fields_falsy r k Hk). unfold get.
    by destruct Hfalsy as [->|[->| ->]]. }
  apply (classify_missing (seen_ids st)) in Hm.
  pose proof (step_counters st r) as [_ Hc]. by rewrite Hm in Hc |- *.
Qed.

End CleanTheorems.

(** * Properties of the downloader *)

Section DownloadFacts.
Variable api : nat -> api_reply.

Lemma fetch_page_retried (k : nat) :
  forall (n retry_count : nat) (st : download_state),
    retry_count + k < max_retries ->
    (forall i, i < k -> api (calls st + i) = ApiError) ->
    fetch_page api (k + n) retry_count st
    = fetch_page api n (retry_count + k) (retried st retry_count k).
Proof.
  induction k as [|k IH]; intros n rc st Hk Hfail.
  - unfold retried. cbn [backoff]. rewrite !Nat.add_0_r, app_nil_r. by destruct st.
  - cbn [Nat.add fetch_page]. unfold request.
    rewrite <- (Nat.add_0_r (calls st)), Hfail by lia.
    assert ((rc + 1 <? max_retries)%nat = true) as -> by (apply Nat.ltb_lt; lia).
    rewrite IH; cbn [calls offset log trace].
    + f_equal; [lia|]. unfold retried. cbn. f_equal; [lia|].
      by rewrite <- !app_assoc.
    + lia.
    + intros i Hi. rewrite <- Hfail with (i := S i) by lia. f_equal. lia.
Qed.

(** One run of the retry loop: every request it makes is at the offset it
    started from, and the collection, the offset and the running total move
    by the page stored, if one is. *)
Lemma fetch_page_spec (n : nat) :
  forall (retry_count : nat) (st : download_state),
    let st' := fst (fetch_page api n retry_count st) in
    let page := default [] (snd (fetch_page api n retry_count st)) in
    (exists es,
        trace st' = trace st ++ es /\
        (forall o, Get o ∈ es -> o = offset st) /\
        (0 < n -> exists es', es = Get (offset st) :: es')) /\
    collection_2024 st' = collection_2024 st ++ page /\
    offset st' = offset st + length page /\
    total_imported st' = total_imported st + length page.
Proof.
  induction n as [|n IH]; intros rc st; cbn zeta.
  { cbn. rewrite !app_nil_r, !Nat.add_0_r. split; [|done].
    exists []. rewrite app_nil_r. split; [done|]. split; [|lia].
    by intros o Ho%elem_of_nil. }
  cbn [fetch_page]. unfold request.
  destruct (api (calls st)) as [|results].
  - destruct (rc + 1 <? max_retries)%nat.
    + specialize (IH (rc + 1)
        (log {| collection_2024 := collection_2024 st; offset := offset st;
                total_imported := total_imported st; calls := calls st + 1;
                trace := trace st ++ [Get (offset st)] |} [Sleep ((rc + 1) * 5)])).
      cbn zeta in IH. destruct IH as ((es & Ht & Hget & _) & Hc & Ho & Hi).
      cbn [log collection_2024 offset total_imported trace] in *.
      split; [|done].
      exists (Get (offset st) :: Sleep ((rc + 1) * 5) :: es).
      split; [by rewrite Ht, <- !app_assoc|]. split; [|by eexists].
      intros o Hin. apply elem_of_cons in Hin as [[= ->]|Hin]; [done|].
      apply elem_of_cons in Hin as [?|Hin]; [done|]. by apply Hget.
    + cbn. rewrite !app_nil_r, !Nat.add_0_r. split; [|done].
      exists [Get (offset st)]. split; [done|]. split; [|by eexists].
      by intros o [= ->]%list_elem_of_singleton.
  - destruct results as [|x results].
    + cbn. rewrite !app_nil_r, !Nat.add_0_r. split; [|done].
      exists [Get (offset st)]. split; [done|]. split; [|by eexists].
      by intros o [= ->]%list_elem_of_singleton.
    + destruct (length (x :: results) <? batch_size)%nat;
        cbn [fst snd default log store_page collection_2024 offset total_imported trace].
      * split; [|done]. exists [Get (offset st); InsertMany (length (x :: results))].
        split; [by rewrite <- app_assoc|]. split; [|by eexists].
        intros o Hin. apply elem_of_cons in Hin as [[= ->]|Hin]; [done|].
        by apply list_elem_of_singleton in Hin.
      * split; [|done].
        exists [Get (offset st); InsertMany (length (x :: results)); Sleep 1].
        split; [by rewrite <- !app_assoc|]. split; [|by eexists].
        intros o Hin. apply elem_of_cons in Hin as [[= ->]|Hin]; [done|].
        apply elem_of_cons in Hin as [?|Hin]; [done|].
        by apply list_elem_of_singleton in Hin.
Qed.

(** The loop over pages: requests never go below the offset the loop
    starts at, and the first of them is at that offset. *)
Lemma download_loop_spec (fuel : nat) :
  forall st : download_state,
    let st' := fst (download_loop api fuel st) in
    exists (es : list event) (pages : list raw_record),
      trace st' = trace st ++ es /\
      (forall o, Get o ∈ es -> offset st <= o) /\
      (0 < fuel -> exists es', es = Get (offset st) :: es') /\
      collection_2024 st' = collection_2024 st ++ pages /\
      offset st' = offset st + length pages /\
      total_imported st' = total_imported st + length pages.
Proof.
  induction fuel as [|fuel IH]; intros st; cbn zeta.
  { exists [], []. cbn. rewrite !app_nil_r, !Nat.add_0_r.
    split; [done|]. split; [by intros o Ho%elem_of_nil|]. split; [lia|done]. }
  cbn [download_loop].
  pose proof (fetch_page_spec max_retries 0 st) as Hpage. cbn zeta in Hpage.
  destruct (fetch_page api max_retries 0 st) as [st1 r].
  cbn [fst snd] in Hpage.
  destruct Hpage as ((es & Ht & Hget & Hfirst) & Hc & Ho & Hi).
  destruct Hfirst as [es' ->]; [unfold max_retries; lia|].
  assert (exists (es0 : list event) (pages : list raw_record),
            trace st1 = trace st ++ es0 /\
            (forall o, Get o ∈ es0 -> offset st <= o) /\
            (0 < S fuel -> exists es1, es0 = Get (offset st) :: es1) /\
            collection_2024 st1 = collection_2024 st ++ pages /\
            offset st1 = offset st + length pages /\
            total_imported st1 = total_imported st + length pages) as Hstop.
  { exists (Get (offset st) :: es'), (default [] r).
    split; [done|]. split; [by intros o ->%Hget|]. split; [by eexists|done]. }
  destruct r as [[|x results]|]; [done| |done].
  destruct (length (x :: results) <? batch_size)%nat; [done|].
  destruct (IH st1) as (es2 & pages & Ht2 & Hget2 & _ & Hc2 & Ho2 & Hi2).
  exists ((Get (offset st) :: es') ++ es2), ((x :: results) ++ pages).
  cbn [default] in Hc, Ho, Hi. unfold id in Hc, Ho, Hi.
  split; [by rewrite Ht2, Ht, <- app_assoc|].
  split.
  { intros o Hin. apply elem_of_app in Hin as [Hin|Hin].
    - by apply Hget in Hin as ->.
    - apply Hget2 in Hin. lia. }
  split; [by eexists|].
  rewrite Hc2, Ho2, Hi2, Hc, Ho, Hi, length_app, <- !app_assoc. split; [done|]. lia.
Qed.

Lemma backoff_lookup (o : nat) (k : nat) :
  forall retry_count i, i < k ->
    backoff o retry_count k !! (2 * i) = Some (Get o) /\
    backoff o retry_count k !! (2 * i + 1) = Some (Sleep ((retry_count + i + 1) * 5)).
Proof.
  induction k as [|k IH]; intros rc i Hi; [lia|].
  destruct i as [|i]; cbn [backoff].
  - cbn. by rewrite Nat.add_0_r.
  - destruct (IH (rc + 1) i) as [E1 E2]; [lia|]. split.
    + replace (2 * S i) with (S (S (2 * i))) by lia. exact E1.
    + replace (2 * S i + 1) with (S (S (2 * i + 1))) by lia.
      replace (rc + S i + 1) with (rc + 1 + i + 1) by lia. exact E2.
Qed.

Lemma fetch_page_exhausted (st : download_state) :
  (forall i, i < max_retries -> api (calls st + i) = ApiError) ->
  fetch_page api max_retries 0 st
  = ({| collection_2024 := collection_2024 st;
        offset := offset st;
        total_imported := total_imported st;
        calls := calls st + max_retries;
        trace := trace st ++ backoff (offset st) 0 4 ++ [Get (offset st)] |}, None).
Proof.
  intros Hfail. change max_retries with (4 + 1) at 1.
  rewrite fetch_page_retried; [|unfold max_retries; lia|].
  - cbn [fetch_page]. unfold request. cbn [retried calls].
    rewrite Hfail by (unfold max_retries; lia). cbn.
    do 2 f_equal; [unfold max_retries; lia|]. by rewrite <- !app_assoc.
  - intros i Hi. apply Hfail. unfold max_retries. lia.
Qed.

End DownloadFacts.

(** C6. The retry policy of one page. When the first [k < 5] requests at the
    current offset fail and the next one returns a non-empty page, all [k + 1]
    requests are made at that same offset, the wait after the i-th failure is
    [i * 5], the page is inserted once and the offset and the total advance by
    its size.  When five requests in a row fail, the five are made at that
    offset with waits of 5, 10, 15 and 20 between them, nothing is stored, the
    offset stays, and the run completes without an exception. *)
Theorem retry_policy (api : nat -> api_reply) :
  (forall (st : download_state) (k : nat) (page : list raw_record),
      k < max_retries ->
      (forall i, i < k -> api (calls st + i) = ApiError) ->
      api (calls st + k) = ApiResults page ->
      page <> [] ->
      let st' := fst (fetch_page api max_retries 0 st) in
      snd (fetch_page api max_retries 0 st) = Some page /\
      collection_2024 st' = collection_2024 st ++ page /\
      offset st' = offset st + length page /\
      total_imported st' = total_imported st + length page /\
      trace st' = trace st ++ backoff (offset st) 0 k
                  ++ [Get (offset st); InsertMany (length page)]
                  ++ (if (length page <? batch_size)%nat then [] else [Sleep 1]) /\
      forall i, i < k ->
        backoff (offset st) 0 k !! (2 * i) = Some (Get (offset st)) /\
        backoff (offset st) 0 k !! (2 * i + 1) = Some (Sleep ((i + 1) * 5))) /\
  (forall st : download_state,
      (forall i, i < max_retries -> api (calls st + i) = ApiError) ->
      forall fuel : nat,
        let st' := fst (download_loop api (S fuel) st) in
        snd (download_loop api (S fuel) st) = Completed /\
        collection_2024 st' = collection_2024 st /\
        offset st' = offset st /\
        total_imported st' = total_imported st /\
        trace st' = trace st ++ [Get (offset st); Sleep 5; Get (offset st); Sleep 10;
                                 Get (offset st); Sleep 15; Get (offset st); Sleep 20;
                                 Get (offset st)]) /\
  (forall (raw : list raw_record) (confirm : bool) (fuel : nat),
      confirm = true \/ raw = [] ->
      (forall i, i < max_retries -> api i = ApiError) ->
      download_2024_crime_data_robust api confirm (S fuel) raw
      = ({| collection_2024 := raw;
            offset := length raw;
            total_imported := length raw;
            calls := max_retries;
            trace := [Get (length raw); Sleep 5; Get (length raw); Sleep 10;
                      Get (length raw); Sleep 15; Get (length raw); Sleep 20;
                      Get (length raw)] |}, Completed)).
Proof.
  split; [|split].
  - intros st k page Hk Hfail Hpage Hne. cbn zeta.
    assert (max_retries = k + S (max_retries - S k)) as Hn by lia.
    pose proof (fetch_page_retried api k (S (max_retries - S k)) 0 st) as E.
    rewrite <- Hn in E. rewrite E by (done || lia). clear E.
    cbn [fetch_page]. unfold request. cbn [retried calls]. rewrite Hpage.
    destruct page as [|x page]; [done|].
    split; [by destruct (length (x :: page) <? batch_size)%nat|].
    split; [by destruct (length (x :: page) <? batch_size)%nat|].
    split; [by destruct (length (x :: page) <? batch_size)%nat|].
    split; [by destruct (length (x :: page) <? batch_size)%nat|].
    split.
    + destruct (length (x :: page) <? batch_size)%nat; cbn;
        rewrite <- ?app_assoc; cbn; by rewrite ?app_nil_r.
    + intros i Hi. by apply backoff_lookup.
  - intros st Hfail fuel. cbn zeta. cbn [download_loop].
    rewrite fetch_page_exhausted by done. done.
  - intros raw confirm fuel Hgo Hfail. unfold download_2024_crime_data_robust.
    assert ((0 <? length raw)%nat && negb confirm = false) as ->.
    { destruct Hgo as [->| ->]; [apply andb_false_r|done]. }
    assert ((if (0 <? length raw)%nat then length raw else 0) = length raw) as ->.
    { by destruct (length raw). }
    cbn [download_loop]. rewrite fetch_page_exhausted by done.
    cbn [total_imported]. by rewrite Nat.ltb_irrefl.
Qed.

(** C7. A run over a raw store of N documents, when it proceeds, makes its
    first request at offset N, and no request of the run is made below N; the
    store only grows at its end, and the running total is at every point the
    number of documents in it: each page stored adds its size to both. *)
Theorem resumes_at_count (api : nat -> api_reply) (raw : list raw_record) :
  (forall (confirm : bool) (fuel : nat),
      confirm = true \/ raw = [] -> 0 < fuel ->
      exists rest,
        trace (fst (download_2024_crime_data_robust api confirm fuel raw))
        = Get (length raw) :: rest) /\
  (forall (confirm : bool) (fuel : nat),
      let st' := fst (download_2024_crime_data_robust api confirm fuel raw) in
      (forall o, Get o ∈ trace st' -> length raw <= o) /\
      (exists pages, collection_2024 st' = raw ++ pages) /\
      total_imported st' = length (collection_2024 st')) /\
  (forall (n retry_count : nat) (st : download_state),
      let st' := fst (fetch_page api n retry_count st) in
      let page := default [] (snd (fetch_page api n retry_count st)) in
      collection_2024 st' = collection_2024 st ++ page /\
      total_imported st' = total_imported st + length page /\
      length (collection_2024 st') = length (collection_2024 st) + length page).
Proof.
  assert (forall (confirm : bool) (fuel : nat),
             ((0 <? length raw)%nat && negb confirm = true /\
              fst (download_2024_crime_data_robust api confirm fuel raw)
              = {| collection_2024 := raw; offset := 0; total_imported := length raw;
                   calls := 0; trace := [] |}) \/
             ((0 <? length raw)%nat && negb confirm = false /\
              exists es pages,
                trace (fst (download_2024_crime_data_robust api confirm fuel raw)) = es /\
                (forall o, Get o ∈ es -> length raw <= o) /\
                (0 < fuel -> exists es', es = Get (length raw) :: es') /\
                collection_2024 (fst (download_2024_crime_data_robust api confirm fuel raw))
                = raw ++ pages /\
                total_imported (fst (download_2024_crime_data_robust api confirm fuel raw))
                = length raw + length pages)) as Hrun.
  { intros confirm fuel. unfold download_2024_crime_data_robust.
    destruct ((0 <? length raw)%nat && negb confirm) eqn:Hgo; [by left|right].
    split; [done|].
    assert ((if (0 <? length raw)%nat then length raw else 0) = length raw) as ->.
    { destruct (length raw); done. }
    set (st := {| collection_2024 := raw; offset := length raw;
                  total_imported := length raw; calls := 0; trace := [] |}).
    destruct (download_loop_spec api fuel st)
      as (es & pages & Ht & Hget & Hfirst & Hc & _ & Hi).
    destruct (download_loop api fuel st) as [st' s]. cbn [fst] in *.
    cbn [st trace collection_2024 offset total_imported app] in *.
    assert (forall o, Get o ∈ es ++ [CreateIndexes] -> length raw <= o) as Hget'.
    { intros o Hin. apply elem_of_app in Hin as [Hin|Hin]; [by apply Hget|].
      by apply list_elem_of_singleton in Hin. }
    assert (0 < fuel -> exists es', es ++ [CreateIndexes] = Get (length raw) :: es')
      as Hfirst'.
    { intros Hf. destruct (Hfirst Hf) as [es' ->]. by eexists. }
    destruct s; [| destruct (length raw <? total_imported st')%nat |];
      cbn [fst log trace collection_2024 total_imported]; rewrite Ht;
      eexists _, pages; (split; [reflexivity|]); done. }
  split; [|split].
  - intros confirm fuel Hgo Hfuel.
    destruct (Hrun confirm fuel) as [[Hno _]|(_ & es & pages & <- & _ & Hfirst & _)].
    + destruct Hgo as [->| ->]; [by rewrite andb_false_r in Hno|done].
    + by apply Hfirst.
  - intros confirm fuel. cbn zeta.
    destruct (Hrun confirm fuel) as [[_ ->]|(_ & es & pages & <- & Hget & _ & Hc & Hi)].
    + cbn. split; [by intros o Ho%elem_of_nil|]. split; [|done].
      exists []. by rewrite app_nil_r.
    + split; [done|]. split; [by exists pages|]. by rewrite Hi, Hc, length_app.
  - intros n rc st. cbn zeta.
    destruct (fetch_page_spec api n rc st) as (_ & Hc & _ & Hi).
    split; [done|]. split; [done|]. by rewrite Hc, length_app.
Qed.

(** * The properties at concrete inputs *)

Ltac decide_by_compute := apply (bool_decide_unpack _); vm_compute; exact I.

Lemma checks_in_order_witness :
  skipped_missing (fst (step start null_borough)) = 1 /\
  skipped_duplicate (fst (step (fst (step start seven_first)) seven_again)) = 1 /\
  skipped_invalid_coords (fst (step start far_north)) = 1 /\
  skipped_missing (fst (step start queens_1)) = 0.
Proof.
  destruct (checks_in_order start null_borough) as (Hmiss & _).
  destruct (checks_in_order (fst (step start seven_first)) seven_again) as (_ & Hdup & _).
  destruct (checks_in_order start far_north) as (_ & _ & Hbad & _).
  destruct (checks_in_order start queens_1) as (_ & _ & _ & Hok).
  split; [|split; [|split]].
  - apply Hmiss. vm_compute. reflexivity.
  - apply Hdup.
    + vm_compute. reflexivity.
    + decide_by_compute.
  - apply Hbad.
    + vm_compute. reflexivity.
    + decide_by_compute.
    + vm_compute. reflexivity.
  - apply Hok.
    + vm_compute. reflexivity.
    + decide_by_compute.
    + vm_compute. reflexivity.
Defined.

Lemma clean_ids_unique_witness :
  let target :=
    complaints_2024_clean (fst (clean_2024_data (Db [queens_1; seven_first] empty_clean))) in
  exists a b : document,
    docs target !! 0 = Some a /\ docs target !! 1 = Some b /\
    a !! "cmplnt_num" <> b !! "cmplnt_num".
Proof.
  cbn zeta.
  exists (cleaned_record queens_1 40.7 (-73.8)), (cleaned_record seven_first 40.85 (-73.9)).
  assert (docs (complaints_2024_clean
                  (fst (clean_2024_data (Db [queens_1; seven_first] empty_clean)))) !! 0
          = Some (cleaned_record queens_1 40.7 (-73.8))) as H0.
  { vm_compute. reflexivity. }
  assert (docs (complaints_2024_clean
                  (fst (clean_2024_data (Db [queens_1; seven_first] empty_clean)))) !! 1
          = Some (cleaned_record seven_first 40.85 (-73.9))) as H1.
  { vm_compute. reflexivity. }
  split; [exact H0|]. split; [exact H1|].
  apply (proj2 (clean_ids_unique (Db [queens_1; seven_first] empty_clean)) 0 1 _ _ H0 H1).
  lia.
Defined.

Lemma coordinates_checked_witness :
  (exists lat lon : float,
      cleaned_record queens_1 40.7 (-73.8) !! "latitude" = Some (VFloat lat) /\
      cleaned_record queens_1 40.7 (-73.8) !! "longitude" = Some (VFloat lon) /\
      (40.4 <=? lat)%float = true /\ (lat <=? 41.0)%float = true /\
      (-74.4 <=? lon)%float = true /\ (lon <=? -73.6)%float = true) /\
  classify (seen_ids start) far_north = InvalidCoords /\
  skipped_invalid_coords (fst (step start far_north)) = 1.
Proof.
  destruct coordinates_checked as [Hbox Hrule]. split.
  - apply (Hbox (Db [queens_1] empty_clean)).
    apply list_elem_of_lookup. exists 0. vm_compute. reflexivity.
  - assert (missing_fields far_north = false) as Hm by (vm_compute; reflexivity).
    assert (get far_north "cmplnt_num" ∉ seen_ids start) as Hfresh.
    { decide_by_compute. }
    assert (py_float (get far_north "latitude") = None \/
            py_float (get far_north "longitude") = None \/
            exists lat lon : float,
              py_float (get far_north "latitude") = Some lat /\
              py_float (get far_north "longitude") = Some lon /\
              in_nyc lat lon = false) as Hbad.
    { right. right. exists 99.9%float, (-73.8)%float.
      split; [vm_compute; reflexivity|]. split; vm_compute; reflexivity. }
    destruct (Hrule start far_north Hm Hfresh Hbad) as (Hv & Hc & _). by split.
Defined.

(** C4, as first stated, fails: a record whose latitude parses to a point
    outside the box is not counted as invalid coordinates when its borough is
    the null marker; the missing-field check comes first and counts it. *)
Lemma coordinate_rule_counterexample :
  coordinates_invalid null_borough = true /\
  classify (seen_ids start) null_borough = Missing /\
  skipped_invalid_coords (fst (step start null_borough)) = 0 /\
  skipped_missing (fst (step start null_borough)) = 1.
Proof. repeat split; vm_compute; reflexivity. Qed.

Lemma duplicate_rule_witness :
  (exists lat lon,
      classify (seen_ids (after empty_clean [queens_1])) seven_first = Accept lat lon /\
      stored (after empty_clean ([queens_1] ++ [seven_first]))
      = stored (after empty_clean [queens_1]) ++ [cleaned_record seven_first lat lon]) /\
  classify (seen_ids (after empty_clean ([queens_1] ++ seven_first :: [far_north])))
           seven_again = Duplicate /\
  skipped_duplicate
    (after empty_clean (([queens_1] ++ seven_first :: [far_north]) ++ [seven_again]))
  = skipped_duplicate (after empty_clean ([queens_1] ++ seven_first :: [far_north])) + 1 /\
  stored (after empty_clean (([queens_1] ++ seven_first :: [far_north]) ++ [seven_again]))
  = stored (after empty_clean ([queens_1] ++ seven_first :: [far_north])).
Proof.
  apply (proj2 duplicate_rule empty_clean [queens_1] [far_north] seven_first seven_again).
  - vm_compute. reflexivity.
  - vm_compute. reflexivity.
  - vm_compute. reflexivity.
  - intros r Hr _. apply list_elem_of_singleton in Hr as ->. vm_compute. discriminate.
Defined.

Lemma empty_field_is_missing_witness :
  classify (seen_ids start) no_offence = Missing /\
  skipped_missing (fst (step start no_offence)) = skipped_missing start + 1 /\
  skipped_duplicate (fst (step start no_offence)) = skipped_duplicate start /\
  skipped_invalid_coords (fst (step start no_offence)) = skipped_invalid_coords start /\
  seen_ids (fst (step start no_offence)) = seen_ids start /\
  stored (fst (step start no_offence)) = stored start.
Proof.
  apply (empty_field_is_missing start no_offence "ofns_desc").
  - decide_by_compute.
  - left. vm_compute. reflexivity.
Defined.

Lemma retry_policy_witness :
  (let st' := fst (fetch_page (flaky [queens_1]) max_retries 0 fresh) in
   snd (fetch_page (flaky [queens_1]) max_retries 0 fresh) = Some [queens_1] /\
   collection_2024 st' = [queens_1] /\
   offset st' = 1 /\
   trace st' = [Get 0; Sleep 5; Get 0; Sleep 10; Get 0; Sleep 15; Get 0; Sleep 20;
                Get 0; InsertMany 1]) /\
  (let st' := fst (download_loop down 1 fresh) in
   snd (download_loop down 1 fresh) = Completed /\
   collection_2024 st' = [] /\ offset st' = 0 /\
   trace st' = [Get 0; Sleep 5; Get 0; Sleep 10; Get 0; Sleep 15; Get 0; Sleep 20; Get 0]).
Proof.
  split.
  - destruct (retry_policy (flaky [queens_1])) as [Hretry _].
    destruct (Hretry fresh 4 [queens_1]) as (Hr & Hc & Ho & _ & Ht & _).
    + unfold max_retries. lia.
    + intros i Hi. destruct i as [|[|[|[|i]]]]; try reflexivity. lia.
    + reflexivity.
    + discriminate.
    + cbn zeta. split; [exact Hr|]. split; [exact Hc|]. split; [exact Ho|exact Ht].
  - destruct (retry_policy down) as (_ & Hdown & _).
    destruct (Hdown fresh (fun i _ => eq_refl) 0) as (Hs & Hc & Ho & _ & Ht).
    cbn zeta. split; [exact Hs|]. split; [exact Hc|]. split; [exact Ho|exact Ht].
Defined.

Lemma resumes_at_count_witness :
  (exists rest,
      trace (fst (download_2024_crime_data_robust (flaky [queens_1]) true 1 [seven_first]))
      = Get 1 :: rest) /\
  1 <= 1.
Proof.
  destruct (resumes_at_count (flaky [queens_1]) [seven_first]) as (Hfirst & Hall & _).
  split.
  - apply Hfirst; [by left|lia].
  - apply (proj1 (Hall true 1) 1). vm_compute. apply list_elem_of_here.
Defined.


(** * Further properties of the cleaning pass *)

Section CleanExtras.
Context `{FloatOfStr}.

Lemma pass_loop_built_from (l : list raw_record) :
  forall st, pass_inv st ->
    exists (kept : list raw_record) (new : list document),
      kept `sublist_of` l /\
      Forall2 built_from new kept /\
      stored (fst (pass_loop l st)) = stored st ++ new.
Proof.
  induction l as [|r l IH]; intros st Hinv.
  { exists [], []. cbn. rewrite app_nil_r. split; [done|]. split; [constructor|done]. }
  destruct (step_effect st r Hinv) as (st1 & E & _ & Hst).
  pose proof (step_inv st r Hinv) as Hinv1. rewrite E in Hinv1. cbn [fst] in Hinv1.
  destruct (IH st1 Hinv1) as (kept & new & Hsub & Hbuilt & Hnew).
  cbn [pass_loop]. rewrite E, Hnew, Hst.
  destruct (classify (seen_ids st) r) as [| | |lat lon] eqn:Hv.
  1-3: exists kept, new; rewrite app_nil_r;
       (split; [by apply sublist_cons|]); by split.
  apply classify_accept in Hv as (Hm & _ & Hlat & Hlon & Hbox).
  exists (r :: kept), (cleaned_record r lat lon :: new).
  split; [by apply sublist_skip|]. split.
  - constructor; [|done]. by exists lat, lon.
  - by rewrite <- app_assoc.
Qed.

Lemma clean_documents_in_order_aux (d : db) :
  exists kept : list raw_record,
    kept `sublist_of` complaints_2024 d /\
    Forall2 built_from (docs (complaints_2024_clean (fst (clean_2024_data d)))) kept.
Proof.
  rewrite clean_2024_data_spec. cbn [fst complaints_2024_clean docs].
  destruct (pass_loop_built_from (complaints_2024 d) _
              (initial_inv (complaints_2024_clean d))) as (kept & new & Hsub & Hb & Hst).
  exists kept. split; [done|]. unfold after. by rewrite Hst.
Qed.

(** X1. The clean collection holds, in storage order, the documents built
    from a sub-sequence of the raw records: nothing is invented or reordered,
    and each document is its record with the coordinates parsed. *)
Theorem clean_documents_in_order (d : db) :
  exists kept : list raw_record,
    kept `sublist_of` complaints_2024 d /\
    Forall2 built_from (docs (complaints_2024_clean (fst (clean_2024_data d)))) kept.
Proof.
  rewrite clean_2024_data_spec. cbn [fst complaints_2024_clean docs].
  destruct (pass_loop_built_from (complaints_2024 d) _
              (initial_inv (complaints_2024_clean d))) as (kept & new & Hsub & Hb & Hst).
  exists kept. split; [done|]. unfold after. by rewrite Hst.
Qed.

Lemma truthy_text (v : raw_value) :
  truthy v = true -> exists s, v = RStr s /\ s <> "".
Proof.
  destruct v as [|s]; [done|]. cbn. intros Hs. exists s. split; [done|].
  intros ->. done.
Qed.

Lemma not_missing_truthy (r : raw_record) (k : string) :
  missing_fields r = false -> k ∈ essential_fields -> truthy (get r k) = true.
Proof.
  unfold missing_fields. intros Hm Hk.
  apply orb_false_elim in Hm as [Hm _]. apply orb_false_elim in Hm as [Hm _].
  apply negb_false_iff in Hm. rewrite forallb_forall in Hm.
  apply Hm. by apply list_elem_of_In.
Qed.

Lemma cleaned_record_text (r : raw_record) (lat lon : float) (k : string) :
  k ∈ text_fields -> cleaned_record r lat lon !! k = Some (of_raw (get r k)).
Proof.
  unfold text_fields. intros Hk.
  repeat (apply elem_of_cons in Hk as [->|Hk]);
    [..|by apply elem_of_nil in Hk];
    unfold cleaned_record; rewrite ?lookup_insert_ne by done; by rewrite lookup_insert_eq.
Qed.

Lemma cleaned_record_time (r : raw_record) (lat lon : float) :
  cleaned_record r lat lon !! "cmplnt_fr_tm"
  = Some (of_raw (get_default r "cmplnt_fr_tm" (RStr "00:00:00"))).
Proof.
  unfold cleaned_record. rewrite !lookup_insert_ne by done. by rewrite lookup_insert_eq.
Qed.

Lemma cleaned_record_dom (r : raw_record) (lat lon : float) :
  dom (cleaned_record r lat lon) = clean_keys.
Proof.
  unfold cleaned_record, clean_keys. rewrite !dom_insert_L, dom_empty_L.
  cbn [list_to_set foldr]. set_solver.
Qed.

Lemma text_fields_essential (k : string) : k ∈ text_fields -> k ∈ essential_fields.
Proof.
  unfold text_fields, essential_fields. intros Hk.
  repeat (apply elem_of_cons in Hk as [->|Hk]); [..|by apply elem_of_nil in Hk];
    set_solver.
Qed.

(** X2. Every document of the clean collection has exactly the eight fields
    of a cleaned record; its identifier, date, borough, offence and law
    category are non-empty text, the borough is not the null marker, and the
    time is text or null. *)
Theorem clean_documents_well_formed (d : db) (doc : document) :
  doc ∈ docs (complaints_2024_clean (fst (clean_2024_data d))) ->
  dom doc = clean_keys /\
  (forall k, k ∈ text_fields -> exists s, doc !! k = Some (VStr s) /\ s <> "") /\
  doc !! "boro_nm" <> Some (VStr "(null)") /\
  (doc !! "cmplnt_fr_tm" = Some VNull \/ exists s, doc !! "cmplnt_fr_tm" = Some (VStr s)).
Proof.
  intros Hin. destruct (clean_documents_in_order_aux d) as (kept & _ & Hb).
  apply list_elem_of_lookup in Hin as [i Hi].
  destruct (Forall2_lookup_l _ _ _ _ _ Hb Hi) as (r & _ & lat & lon & Hm & _ & _ & _ & ->).
  split; [apply cleaned_record_dom|]. split; [|split].
  - intros k Hk. rewrite cleaned_record_text by done.
    destruct (truthy_text (get r k)) as (s & -> & Hs).
    { apply not_missing_truthy; [done|]. by apply text_fields_essential. }
    by exists s.
  - rewrite cleaned_record_text by set_solver.
    unfold missing_fields in Hm. apply orb_false_elim in Hm as [Hm _].
    apply orb_false_elim in Hm as [_ Hm]. apply bool_decide_eq_false in Hm.
    destruct (get r "boro_nm") as [|s]; [done|]. cbn. intros [= ->]. done.
  - rewrite cleaned_record_time.
    destruct (get_default r "cmplnt_fr_tm" (RStr "00:00:00")) as [|s]; [by left|].
    right. by exists s.
Qed.

(** The time of a cleaned document is the raw value when the raw record has
    the key, null included, and the midnight default only when the key is
    absent. *)
Lemma time_defaults_when_absent (doc : document) (r : raw_record) :
  built_from doc r ->
  doc !! "cmplnt_fr_tm"
  = Some match r !! "cmplnt_fr_tm" with
         | None => VStr "00:00:00"
         | Some v => of_raw v
         end.
Proof.
  intros (lat & lon & _ & _ & _ & _ & ->). rewrite cleaned_record_time.
  unfold get_default. by destruct (r !! "cmplnt_fr_tm").
Qed.

Lemma batch_limit_pos : 0 < batch_limit.
Proof. apply Nat.ltb_lt. reflexivity. Qed.

Lemma step_buffer (st : pass_state) (r : raw_record) :
  pass_inv st ->
  length (records_to_insert st) < batch_limit ->
  let st' := fst (step st r) in
  length (records_to_insert st') < batch_limit /\
  (length (docs (clean_collection st')) = length (docs (clean_collection st)) \/
   length (docs (clean_collection st'))
   = length (docs (clean_collection st)) + batch_limit).
Proof.
  intros Hinv Hlen. cbn zeta.
  pose proof (step_effect st r Hinv) as (st1 & E & _ & Hst). rewrite E. cbn [fst].
  revert E. unfold step. cbn [seen_ids records_to_insert clean_collection].
  destruct (classify (seen_ids st) r) as [| | |lat lon];
    try (intros [= <-]; cbn; split; [done|by left]).
  pose proof batch_limit_pos.
  destruct (Nat.leb_spec batch_limit
              (length (records_to_insert st ++ [cleaned_record r lat lon]))) as [Hfull|Hroom].
  - destruct (insert_many _ _) as [c [e|]] eqn:Hins; [done|].
    intros [= <-]. cbn [records_to_insert clean_collection length].
    split; [done|]. right.
    unfold stored in Hst. cbn [records_to_insert clean_collection] in Hst.
    rewrite app_nil_r in Hst. rewrite Hst, !length_app in *. cbn [length] in *. lia.
  - intros [= <-]. cbn [records_to_insert clean_collection]. split; [done|by left].
Qed.

(** X3. The buffer of accepted documents never reaches 5000 between two
    iterations, and the collection is written in batches of exactly 5000: at
    any point of the pass it holds a multiple of 5000 documents. *)
Theorem buffer_bounded (target : collection) (l : list raw_record) :
  length (records_to_insert (after target l)) < batch_limit /\
  exists k, length (docs (clean_collection (after target l))) = k * batch_limit.
Proof.
  induction l as [|r l IH] using rev_ind.
  - cbn. split; [apply batch_limit_pos|]. by exists 0.
  - destruct IH as (Hlen & k & Hk).
    destruct (after_spec target l) as (_ & Hinv & _).
    rewrite after_snoc.
    destruct (step_buffer _ r Hinv Hlen) as [Hlen' [Hd|Hd]].
    + split; [done|]. exists k. by rewrite Hd.
    + split; [done|]. exists (S k). rewrite Hd, Hk. cbn. lia.
Qed.

Lemma seen_ids_after (target : collection) (l : list raw_record) :
  seen_ids (after target l) = valid_ids l.
Proof.
  apply set_eq. intros v. unfold after, valid_ids.
  rewrite seen_ids_pass_loop by apply initial_inv.
  rewrite elem_of_list_to_set, list_elem_of_fmap. cbn [initial_state seen_ids].
  split.
  - intros [Hin|(r & Hr & Hp & <-)]; [by apply elem_of_empty in Hin|].
    exists r. split; [done|]. by apply list_elem_of_filter.
  - intros (r & -> & Hr). apply list_elem_of_filter in Hr as [Hp Hr].
    right. by exists r.
Qed.

#[local] Instance RStr_inj : Inj (=) (=) RStr.
Proof. by intros s t [= ->]. Qed.

Lemma seen_size (st : pass_state) : pass_inv st -> size (seen_ids st) = length (stored st).
Proof.
  intros [ids Hk Hnd Hseen _ _].
  assert (seen_ids st = list_to_set (RStr <$> ids)) as ->.
  { apply set_eq. intros v. rewrite Hseen, elem_of_list_to_set, list_elem_of_fmap.
    split; intros (s & ? & ?); by exists s. }
  rewrite size_list_to_set; [|by apply (NoDup_fmap_2 RStr)].
  by rewrite length_fmap, (Forall2_length _ _ _ Hk).
Qed.

(** X4. The number of documents accepted is the number of distinct
    identifiers among the raw records that pass the missing-field and
    coordinate checks: each such identifier is kept once, whatever the order
    of the records. *)
Theorem accepted_is_distinct_valid_ids (d : db) :
  exists c, snd (clean_pass d) = Ok c /\
            final_count c = size (valid_ids (complaints_2024 d)).
Proof.
  rewrite clean_pass_spec. cbn [snd]. eexists. split; [done|]. cbn [final_count].
  destruct (after_spec (complaints_2024_clean d) (complaints_2024 d)) as (_ & Hinv & _).
  by rewrite <- seen_size, seen_ids_after.
Qed.

(** X5. Every raw record that passes the missing-field and coordinate checks
    has its identifier in the clean collection after the run. *)
Theorem valid_identifier_kept (d : db) (r : raw_record) :
  r ∈ complaints_2024 d ->
  passes_other_checks r = true ->
  exists doc,
    doc ∈ docs (complaints_2024_clean (fst (clean_2024_data d))) /\
    doc !! "cmplnt_num" = Some (of_raw (get r "cmplnt_num")).
Proof.
  intros Hr Hp. rewrite clean_2024_data_spec. cbn [fst complaints_2024_clean docs].
  destruct (after_spec (complaints_2024_clean d) (complaints_2024 d))
    as (_ & [ids Hk Hnd Hseen _ _] & _).
  assert (get r "cmplnt_num" ∈ seen_ids (after (complaints_2024_clean d) (complaints_2024 d)))
    as Hin.
  { rewrite seen_ids_after. unfold valid_ids.
    rewrite elem_of_list_to_set, list_elem_of_fmap.
    exists r. split; [done|]. by apply list_elem_of_filter. }
  apply Hseen in Hin as (s & Hs & ->).
  apply list_elem_of_lookup in Hs as [i Hi].
  destruct (Forall2_lookup_r _ _ _ _ _ Hk Hi) as (doc & Hdoc & Hkey).
  exists doc. split; [|done]. apply list_elem_of_lookup. by exists i.
Qed.

Lemma pass_loop_missing (l : list raw_record) :
  forall st, pass_inv st ->
    skipped_missing (fst (pass_loop l st))
    = skipped_missing st + length (filter (fun r => missing_fields r = true) l).
Proof.
  induction l as [|r l IH]; intros st Hinv; [cbn; lia|].
  destruct (step_effect st r Hinv) as (st1 & E & _ & _).
  pose proof (step_inv st r Hinv) as Hinv1.
  pose proof (step_counters st r) as [_ Hc]. rewrite E in Hinv1, Hc. cbn [fst] in *.
  cbn [pass_loop]. rewrite E, IH by done. rewrite filter_cons.
  destruct (classify (seen_ids st) r) eqn:Hv.
  - destruct Hc as (-> & _). apply classify_missing in Hv.
    rewrite decide_True by done. cbn [length]. lia.
  - destruct Hc as (-> & _). apply classify_duplicate in Hv as [Hm _].
    rewrite decide_False by congruence. lia.
  - destruct Hc as (-> & _). apply classify_invalid in Hv as [Hm _].
    rewrite decide_False by congruence. lia.
  - destruct Hc as (-> & _). apply classify_accept in Hv as [Hm _].
    rewrite decide_False by congruence. lia.
Qed.

(** X6. The missing counter is the number of raw records with a falsy
    essential field or a null-marker borough; it depends neither on the order
    of the records nor on the other two checks. *)
Theorem missing_counter_counts (d : db) :
  exists c, snd (clean_pass d) = Ok c /\
            missing c = length (filter (fun r => missing_fields r = true) (complaints_2024 d)).
Proof.
  rewrite clean_pass_spec. cbn [snd]. eexists. split; [done|]. cbn [missing].
  unfold after. by rewrite pass_loop_missing by apply initial_inv.
Qed.

Lemma truediv_defined (a b : Z) : b <> 0%Z -> exists q, truediv a b = Some q.
Proof.
  intros Hb. unfold truediv. rewrite (proj2 (Z.eqb_neq b 0) Hb).
  destruct a; [by eexists| |];
    destruct (SFdiv_core_binary _ _ _ _ _ _) as [[q e] l]; by eexists.
Qed.

(** X7. The run raises exactly when the raw store is empty; otherwise it
    returns the report with the counters of the pass, whose removed total
    [original_count - final_count] is the sum of the three rejection counters.
    The raw store is left as it was in both cases. *)
Theorem run_completes_unless_empty (d : db) :
  complaints_2024 (fst (clean_2024_data d)) = complaints_2024 d /\
  (complaints_2024 d = [] -> snd (clean_2024_data d) = Raise ZeroDivisionError) /\
  (complaints_2024 d <> [] ->
   exists rep,
     snd (clean_2024_data d) = Ok rep /\
     snd (clean_pass d) = Ok (counts rep) /\
     original_count (counts rep) - final_count (counts rep)
     = missing (counts rep) + invalid_coordinates (counts rep) + duplicate (counts rep)).
Proof.
  rewrite clean_2024_data_spec, clean_pass_spec. cbn [fst snd complaints_2024].
  split; [done|]. split.
  - intros ->. done.
  - intros Hne. unfold summary. cbn [original_count final_count].
    assert (Z.of_nat (length (complaints_2024 d)) <> 0%Z) as Hz.
    { destruct (complaints_2024 d); [done|]. cbn [length]. lia. }
    destruct (truediv_defined (Z.of_nat (length (complaints_2024 d))
                               - Z.of_nat (length (stored (after (complaints_2024_clean d)
                                                                 (complaints_2024 d)))))
                              _ Hz) as [q1 ->].
    destruct (truediv_defined (Z.of_nat (length (stored (after (complaints_2024_clean d)
                                                               (complaints_2024 d)))))
                              _ Hz) as [q2 ->].
    eexists. split; [done|]. cbn [counts]. split; [done|].
    cbn [original_count final_count missing invalid_coordinates duplicate].
    destruct (after_spec (complaints_2024_clean d) (complaints_2024 d))
      as (_ & [ids _ _ _ Hcount _] & _).
    unfold after in *. rewrite pass_loop_processed in Hcount by apply initial_inv.
    cbn [initial_state processed] in Hcount. lia.
Qed.

End CleanExtras.

(** * Further properties of the downloader *)

Section DownloadExtras.
Variable api : nat -> api_reply.


Lemma fetch_page_events (n : nat) :
  forall (retry_count : nat) (st : download_state),
    let st' := fst (fetch_page api n retry_count st) in
    (exists es, trace st' = trace st ++ es /\ Forall paging_event es) /\
    calls st <= calls st' <= calls st + n /\
    (0 < n -> calls st < calls st').
Proof.
  induction n as [|n IH]; intros rc st; cbn zeta.
  { cbn. split; [|lia]. exists []. by rewrite app_nil_r. }
  cbn [fetch_page]. unfold request.
  destruct (api (calls st)) as [|results].
  - destruct (Nat.ltb_spec (rc + 1) max_retries) as [Hrc|Hrc].
    + specialize (IH (rc + 1)
        (log {| collection_2024 := collection_2024 st; offset := offset st;
                total_imported := total_imported st; calls := calls st + 1;
                trace := trace st ++ [Get (offset st)] |} [Sleep ((rc + 1) * 5)])).
      cbn zeta in IH. destruct IH as ((es & Ht & Hes) & Hle & _).
      cbn [log calls trace] in *. split; [|lia].
      exists (Get (offset st) :: Sleep ((rc + 1) * 5) :: es).
      split; [by rewrite Ht, <- !app_assoc|].
      apply Forall_cons. split; [exact I|]. apply Forall_cons. split; [|done].
      cbn. unfold max_retries in Hrc. lia.
    + cbn. split; [|lia]. exists [Get (offset st)]. split; [done|]. by repeat constructor.
  - destruct results as [|x results].
    + cbn. split; [|lia]. exists [Get (offset st)]. split; [done|]. by repeat constructor.
    + destruct (length (x :: results) <? batch_size)%nat;
        cbn [fst log store_page calls trace]; (split; [|lia]).
      * exists [Get (offset st); InsertMany (length (x :: results))].
        split; [by rewrite <- app_assoc|]. by repeat constructor.
      * exists [Get (offset st); InsertMany (length (x :: results)); Sleep 1].
        split; [by rewrite <- !app_assoc|].
        apply Forall_cons. split; [exact I|]. apply Forall_cons. split; [exact I|].
        apply Forall_cons. split; [cbn; lia|]. apply Forall_nil_2.
Qed.

Lemma download_loop_events (fuel : nat) :
  forall st : download_state,
    exists es,
      trace (fst (download_loop api fuel st)) = trace st ++ es /\ Forall paging_event es.
Proof.
  induction fuel as [|fuel IH]; intros st.
  { exists []. cbn. by rewrite app_nil_r. }
  cbn [download_loop].
  destruct (fetch_page_events max_retries 0 st) as ((es & Ht & Hes) & _).
  destruct (fetch_page api max_retries 0 st) as [st1 r]. cbn [fst] in Ht.
  destruct r as [[|x results]|]; [by exists es| |by exists es].
  destruct (length (x :: results) <? batch_size)%nat; [by exists es|].
  destruct (IH st1) as (es2 & Ht2 & Hes2).
  exists (es ++ es2). split; [by rewrite Ht2, Ht, <- app_assoc|]. by apply Forall_app.
Qed.

(** X8. Whatever the remote source does, one page costs at least one and at
    most five requests, and no wait of the loop is longer than 20 seconds. *)
Theorem page_attempts_bounded (st : download_state) :
  let st' := fst (fetch_page api max_retries 0 st) in
  calls st < calls st' /\ calls st' <= calls st + 5 /\
  exists es,
    trace st' = trace st ++ es /\
    forall seconds, Sleep seconds ∈ es -> seconds <= 20.
Proof.
  cbn zeta. destruct (fetch_page_events max_retries 0 st) as ((es & Ht & Hes) & Hle & Hlt).
  split; [apply Hlt; unfold max_retries; lia|]. split; [unfold max_retries in *; lia|].
  exists es. split; [done|]. intros seconds Hin.
  rewrite Forall_forall in Hes. exact (Hes _ Hin).
Qed.

(** X9. The indexes are built exactly when the run completes having stored
    at least one new record, and then as the last thing it does. *)
Theorem indexes_iff_imported (confirm : bool) (fuel : nat) (raw : list raw_record) :
  let st := fst (download_2024_crime_data_robust api confirm fuel raw) in
  let s := snd (download_2024_crime_data_robust api confirm fuel raw) in
  (CreateIndexes ∈ trace st <->
   s = Completed /\ length raw < length (collection_2024 st)) /\
  (CreateIndexes ∈ trace st -> exists es, trace st = es ++ [CreateIndexes] /\
                                          CreateIndexes ∉ es).
Proof.
  cbn zeta. unfold download_2024_crime_data_robust.
  destruct ((0 <? length raw)%nat && negb confirm).
  { cbn. split; [split|].
    - by intros ?%elem_of_nil.
    - by intros [? _].
    - by intros ?%elem_of_nil. }
  assert ((if (0 <? length raw)%nat then length raw else 0) = length raw) as ->.
  { by destruct (length raw). }
  set (st0 := {| collection_2024 := raw; offset := length raw;
                 total_imported := length raw; calls := 0; trace := [] |}).
  destruct (download_loop_events fuel st0) as (es & Ht & Hes).
  destruct (download_loop_spec api fuel st0) as (_ & pages & _ & _ & _ & Hc & _ & Hi).
  destruct (download_loop api fuel st0) as [st' s]. cbn [fst snd] in *.
  cbn [st0 trace collection_2024 total_imported app] in *.
  assert (CreateIndexes ∉ es) as Hno.
  { intros Hin. rewrite Forall_forall in Hes. exact (Hes _ Hin). }
  assert (length (collection_2024 st') = total_imported st') as Hlen.
  { by rewrite Hc, Hi, length_app. }
  destruct s; cbn [fst snd].
  - rewrite Ht. split; [split; [done|by intros [? _]]|done].
  - destruct (Nat.ltb_spec (length raw) (total_imported st')) as [Hgrew|Hsame];
      cbn [log trace collection_2024]; rewrite Ht.
    + split; [split|].
      * intros _. split; [done|lia].
      * intros _. apply elem_of_app. right. apply list_elem_of_here.
      * intros _. by exists es.
    + split; [split; [done|intros [_ ?]; lia]|done].
  - rewrite Ht. split; [split; [done|by intros [? _]]|done].
Qed.

Lemma download_loop_progress (fuel : nat) :
  forall st : download_state,
    snd (download_loop api fuel st) = Running ->
    length (collection_2024 st) + fuel * batch_size
    <= length (collection_2024 (fst (download_loop api fuel st))).
Proof.
  induction fuel as [|fuel IH]; intros st; [cbn; lia|].
  cbn [download_loop].
  pose proof (fetch_page_spec api max_retries 0 st) as (_ & Hc & _).
  destruct (fetch_page api max_retries 0 st) as [st1 r]. cbn [fst snd] in Hc.
  destruct r as [[|x results]|]; [done| |done].
  destruct (Nat.ltb_spec (length (x :: results)) batch_size) as [?|Hfull]; [done|].
  intros Hrun. specialize (IH st1 Hrun).
  cbn [default] in Hc. unfold id in Hc. rewrite Hc, length_app in IH. cbn [Nat.mul]. lia.
Qed.

(** X10. A run that is still going after [fuel] pages has stored at least
    [fuel] full pages: the loop can only go on by storing 5000 new records,
    so it ends on any source that runs out of records. *)
Theorem running_means_progress (confirm : bool) (fuel : nat) (raw : list raw_record) :
  snd (download_2024_crime_data_robust api confirm fuel raw) = Running ->
  length raw + fuel * batch_size
  <= length (collection_2024 (fst (download_2024_crime_data_robust api confirm fuel raw))).
Proof.
  unfold download_2024_crime_data_robust.
  destruct ((0 <? length raw)%nat && negb confirm); [done|].
  assert ((if (0 <? length raw)%nat then length raw else 0) = length raw) as ->.
  { by destruct (length raw). }
  set (st0 := {| collection_2024 := raw; offset := length raw;
                 total_imported := length raw; calls := 0; trace := [] |}).
  pose proof (download_loop_progress fuel st0) as Hp.
  destruct (download_loop api fuel st0) as [st' s]. cbn [fst snd] in *.
  destruct s; [done| |by intros _; apply Hp].
  by destruct (length raw <? total_imported st')%nat.
Qed.

End DownloadExtras.




(** * Properties of the data quality script *)

Lemma guarded_pct_defined (n t : nat) : exists q, guarded_pct n t = Some q.
Proof.
  unfold guarded_pct. destruct (Nat.ltb_spec 0 t) as [Ht|Ht]; [|by eexists].
  destruct (truediv_defined (Z.of_nat n) (Z.of_nat t)) as [q ->]; [lia|]. by eexists.
Qed.

Lemma field_checks_spec (coll : list raw_record) (fields : list string) :
  exists rows,
    field_checks coll fields = Some rows /\
    Forall2 (fun (row : string * nat * float) f =>
               fst (fst row) = f /\
               snd (fst row) = null_count coll f + empty_count coll f) rows fields.
Proof.
  induction fields as [|f fields (rows & IH & Hrows)]; [by exists []|].
  cbn [field_checks]. unfold field_check.
  destruct (guarded_pct_defined (null_count coll f + empty_count coll f) (length coll))
    as [q ->].
  rewrite IH. eexists. split; [done|]. by constructor.
Qed.

Lemma check_data_quality_ok (coll : list raw_record) :
  coll <> [] ->
  exists rows q,
    Forall2 (fun (row : string * nat * float) f =>
               fst (fst row) = f /\
               snd (fst row) = null_count coll f + empty_count coll f)
            rows quality_fields /\
    check_data_quality coll
    = Ok {| total := length coll;
            missing_by_field := rows;
            issues := List.map (fun row : string * nat * float => fst (fst row))
                        (List.filter
                           (fun row : string * nat * float => (0 <? snd (fst row))%nat) rows);
            invalid_coords := count_where flagged_coordinates coll;
            invalid_coords_pct := (q * 100)%float;
            dup_count := length (duplicate_groups coll) |}.
Proof.
  intros Hne. unfold check_data_quality.
  destruct (field_checks_spec coll quality_fields) as (rows & -> & Hrows).
  destruct (truediv_defined (Z.of_nat (count_where flagged_coordinates coll))
                            (Z.of_nat (length coll))) as [q ->].
  { destruct coll; [done|]. cbn [length]. lia. }
  by exists rows, q.
Qed.

(** X12. The quality script stops with [ZeroDivisionError] exactly when the
    collection is empty: the percentage of line 30 is guarded, the one of
    line 53 is not. *)
Theorem quality_check_raises_iff_empty (coll : list raw_record) :
  (coll = [] -> check_data_quality coll = Raise ZeroDivisionError) /\
  (coll <> [] ->
   exists rep,
     check_data_quality coll = Ok rep /\
     total rep = length coll /\
     invalid_coords rep = count_where flagged_coordinates coll /\
     dup_count rep = length (duplicate_groups coll)).
Proof.
  split.
  - intros ->. reflexivity.
  - intros Hne. unfold check_data_quality.
    destruct (field_checks_spec coll quality_fields) as (rows & -> & _).
    destruct (truediv_defined (Z.of_nat (count_where flagged_coordinates coll))
                              (Z.of_nat (length coll))) as [q ->].
    { destruct coll; [done|]. cbn [length]. lia. }
    by eexists.
Qed.

Lemma count_where_all (query : raw_record -> bool) (coll : list raw_record) :
  (forall r, r ∈ coll -> query r = true) -> count_where query coll = length coll.
Proof.
  unfold count_where. induction coll as [|r coll IH]; intros Hall; [done|].
  cbn [List.filter]. rewrite Hall by apply list_elem_of_here. cbn [length].
  rewrite IH; [done|]. intros r' Hr'. apply Hall. by apply list_elem_of_further.
Qed.

(** X13. The coordinate query compares text with text: a longitude that
    reads [-73...] sorts before the bound ["-74.4"], so the script counts every
    such record as having invalid coordinates, and a collection in which all
    longitudes read so is reported as invalid in full. *)
Theorem quality_flags_text_order (coll : list raw_record) :
  (forall r s, get r "longitude" = RStr ("-73" +:+ s) -> flagged_coordinates r = true) /\
  ((forall r, r ∈ coll -> exists s, get r "longitude" = RStr ("-73" +:+ s)) ->
   forall rep, check_data_quality coll = Ok rep -> invalid_coords rep = length coll).
Proof.
  assert (forall r s, get r "longitude" = RStr ("-73" +:+ s) -> flagged_coordinates r = true)
    as Hflag.
  { intros r s Hlon. unfold flagged_coordinates. rewrite Hlon.
    assert (text_lt (RStr ("-73" +:+ s)) "-74.4" = true) as -> by reflexivity.
    by rewrite orb_true_r. }
  split; [done|]. intros Hall rep Hrep.
  destruct coll as [|r0 coll]; [done|].
  destruct (check_data_quality_ok (r0 :: coll)) as (rows & q & _ & Hok); [done|].
  rewrite Hok in Hrep. injection Hrep as <-. cbn [invalid_coords].
  apply count_where_all. intros r Hr. destruct (Hall r Hr) as [s Hs]. by apply (Hflag r s).
Qed.

Lemma count_where_pos (query : raw_record -> bool) (coll : list raw_record) :
  0 < count_where query coll <-> exists r, r ∈ coll /\ query r = true.
Proof.
  unfold count_where. induction coll as [|r coll IH]; cbn [List.filter length].
  - split; [lia|]. intros (r & Hr & _). by apply elem_of_nil in Hr.
  - destruct (query r) eqn:Hq; cbn [length].
    + split; [|lia]. intros _. exists r. split; [apply list_elem_of_here|done].
    + rewrite IH. split.
      * intros (r' & Hr' & Hq'). exists r'. split; [by apply list_elem_of_further|done].
      * intros (r' & Hr' & Hq'). apply elem_of_cons in Hr' as [->|Hr']; [congruence|].
        by exists r'.
Qed.

Lemma falsy_iff (v : raw_value) : truthy v = false <-> v = RNull \/ v = RStr "".
Proof.
  destruct v as [|s]; cbn; [by intuition|].
  destruct (String.eqb_spec s ""); cbn; split; try done.
  - intros _. right. by subst.
  - intros [?|[= ?]]; done.
Qed.

Lemma missing_count_pos (coll : list raw_record) (f : string) :
  0 < null_count coll f + empty_count coll f <->
  exists r, r ∈ coll /\ truthy (get r f) = false.
Proof.
  unfold null_count, empty_count. split.
  - intros Hpos.
    assert (0 < count_where (fun r => bool_decide (get r f = RNull)) coll \/
            0 < count_where (fun r => bool_decide (get r f = RStr "")) coll) as [Hn|He]
      by lia.
    + apply count_where_pos in Hn as (r & Hr & Hq). apply bool_decide_eq_true in Hq.
      exists r. split; [done|]. apply falsy_iff. by left.
    + apply count_where_pos in He as (r & Hr & Hq). apply bool_decide_eq_true in Hq.
      exists r. split; [done|]. apply falsy_iff. by right.
  - intros (r & Hr & Hf). apply falsy_iff in Hf as [Hf|Hf].
    + assert (0 < count_where (fun r => bool_decide (get r f = RNull)) coll); [|lia].
      apply count_where_pos. exists r. split; [done|]. by apply bool_decide_eq_true.
    + assert (0 < count_where (fun r => bool_decide (get r f = RStr "")) coll); [|lia].
      apply count_where_pos. exists r. split; [done|]. by apply bool_decide_eq_true.
Qed.

Lemma issues_spec (coll : list raw_record) (rep : quality_report) (f : string) :
  check_data_quality coll = Ok rep ->
  f ∈ issues rep <->
  f ∈ quality_fields /\ exists r, r ∈ coll /\ truthy (get r f) = false.
Proof.
  intros Hrep. destruct coll as [|r0 coll]; [done|].
  destruct (check_data_quality_ok (r0 :: coll)) as (rows & q & Hrows & Hok); [done|].
  rewrite Hok in Hrep. injection Hrep as <-. cbn [issues].
  rewrite <- missing_count_pos, list_elem_of_In, in_map_iff.
  split.
  - intros (row & <- & Hin). apply filter_In in Hin as [Hin Hpos].
    apply Nat.ltb_lt in Hpos. apply list_elem_of_In, list_elem_of_lookup in Hin as [i Hi].
    destruct (Forall2_lookup_l _ _ _ _ _ Hrows Hi) as (f' & Hf' & Hname & Hcount).
    rewrite Hname. split; [by eapply list_elem_of_lookup_2|]. by rewrite <- Hname, <- Hcount in *.
  - intros [Hf Hpos]. apply list_elem_of_lookup in Hf as [i Hi].
    destruct (Forall2_lookup_r _ _ _ _ _ Hrows Hi) as (row & Hrow & Hname & Hcount).
    exists row. split; [done|]. apply filter_In. split.
    + apply list_elem_of_In. by eapply list_elem_of_lookup_2.
    + apply Nat.ltb_lt. by rewrite Hcount.
Qed.

Lemma missing_fields_spec (r : raw_record) :
  missing_fields r = true <->
  (exists f, f ∈ essential_fields /\ truthy (get r f) = false) \/
  get r "boro_nm" = RStr "(null)".
Proof.
  unfold missing_fields. rewrite !orb_true_iff, negb_true_iff, !bool_decide_eq_true.
  split.
  - intros [[Hall|?]|Hempty]; [|by right|].
    + left. apply not_true_iff_false in Hall.
      destruct (forallb (fun k => truthy (get r k)) essential_fields) eqn:E; [done|].
      clear Hall. induction essential_fields as [|k ks IH]; [done|].
      cbn [forallb] in E. apply andb_false_iff in E as [E|E].
      * exists k. split; [apply list_elem_of_here|done].
      * destruct (IH E) as (f & Hf & Ht). exists f. split; [by apply list_elem_of_further|done].
    + left. exists "boro_nm". split; [unfold essential_fields; set_solver|].
      by rewrite Hempty.
  - intros [(f & Hf & Ht)|?]; [|by left; right].
    left. left. apply not_true_iff_false. intros Hall.
    rewrite forallb_forall in Hall. apply list_elem_of_In in Hf.
    specialize (Hall f Hf). congruence.
Qed.

Lemma essential_in_quality (f : string) : f ∈ essential_fields -> f ∈ quality_fields.
Proof.
  unfold essential_fields, quality_fields. intros Hf.
  repeat (apply elem_of_cons in Hf as [->|Hf]); [..|by apply elem_of_nil in Hf]; set_solver.
Qed.

Section QualityAndClean.
Context `{FloatOfStr}.

(** X14. The cleaning pass counts no record as missing exactly when the
    quality script lists none of the seven essential fields among its issues
    and no borough is the null marker: the two scripts agree on what a missing
    value is. *)
Theorem quality_issues_predict_missing (d : db) (rep : quality_report) (c : counters) :
  check_data_quality (complaints_2024 d) = Ok rep ->
  snd (clean_pass d) = Ok c ->
  missing c = 0 <->
  (forall f, f ∈ essential_fields -> f ∉ issues rep) /\
  (forall r, r ∈ complaints_2024 d -> get r "boro_nm" <> RStr "(null)").
Proof.
  intros Hrep Hc. rewrite clean_pass_spec in Hc. injection Hc as <-. cbn [missing].
  unfold after. rewrite pass_loop_missing by apply initial_inv.
  cbn [initial_state skipped_missing Nat.add].
  rewrite length_zero_iff_nil. split.
  - intros Hnil. split.
    + intros f Hf Hissue. apply (issues_spec _ _ _ Hrep) in Hissue as (_ & r & Hr & Ht).
      assert (r ∈ filter (fun r => missing_fields r = true) (complaints_2024 d)) as Hin.
      { apply list_elem_of_filter. split; [|done]. apply missing_fields_spec. left. by exists f. }
      rewrite Hnil in Hin. by apply elem_of_nil in Hin.
    + intros r Hr Hnull.
      assert (r ∈ filter (fun r => missing_fields r = true) (complaints_2024 d)) as Hin.
      { apply list_elem_of_filter. split; [|done]. apply missing_fields_spec. by right. }
      rewrite Hnil in Hin. by apply elem_of_nil in Hin.
  - intros [Hissues Hnull].
    destruct (filter _ _) as [|r l] eqn:Hfilter; [done|].
    assert (r ∈ filter (fun r => missing_fields r = true) (complaints_2024 d)) as Hin.
    { rewrite Hfilter. apply list_elem_of_here. }
    apply list_elem_of_filter in Hin as [Hm Hr].
    apply missing_fields_spec in Hm as [(f & Hf & Ht)|Hm]; [|by destruct (Hnull r Hr)].
    destruct (Hissues f Hf). apply (issues_spec _ _ _ Hrep).
    split; [by apply essential_in_quality|]. by exists r.
Qed.

Lemma no_duplicate_groups_NoDup (coll : list raw_record) :
  duplicate_groups coll = [] -> NoDup ((fun r => get r "cmplnt_num") <$> coll).
Proof.
  unfold duplicate_groups. intros Hnil.
  assert (forall k, k ∈ (fun r => get r "cmplnt_num") <$> coll ->
                    count_where (fun r => bool_decide (get r "cmplnt_num" = k)) coll <= 1)
    as Hcount.
  { intros k Hk.
    destruct (Nat.ltb_spec 1 (count_where (fun r => bool_decide (get r "cmplnt_num" = k)) coll))
      as [Hmany|?]; [|done].
    assert (In k (List.filter
                    (fun k => (1 <? count_where
                                      (fun r => bool_decide (get r "cmplnt_num" = k)) coll)%nat)
                    (remove_dups ((fun r => get r "cmplnt_num") <$> coll)))) as Hin.
    { apply filter_In. split; [by apply list_elem_of_In, elem_of_remove_dups|].
      by apply Nat.ltb_lt. }
    rewrite Hnil in Hin. done. }
  clear Hnil. induction coll as [|r coll IH]; [constructor|].
  cbn [fmap list_fmap]. apply NoDup_cons. split.
  - intros Hin.
    assert (0 < count_where (fun r' => bool_decide (get r' "cmplnt_num" = get r "cmplnt_num"))
                            coll) as Hpos.
    { apply count_where_pos. apply list_elem_of_fmap in Hin as (r' & Heq & Hr').
      exists r'. split; [done|]. by apply bool_decide_eq_true. }
    specialize (Hcount (get r "cmplnt_num")). unfold count_where in Hcount, Hpos.
    cbn [List.filter] in Hcount. rewrite bool_decide_eq_true_2 in Hcount by done.
    cbn [length] in Hcount.
    assert (get r "cmplnt_num" ∈ (fun r => get r "cmplnt_num") <$> r :: coll) as Hhere.
    { cbn. apply list_elem_of_here. }
    specialize (Hcount Hhere). lia.
  - apply IH. intros k Hk.
    assert (k ∈ (fun r => get r "cmplnt_num") <$> r :: coll) as Hk'.
    { cbn. by apply list_elem_of_further. }
    specialize (Hcount k Hk'). unfold count_where in *. cbn [List.filter] in Hcount.
    destruct (bool_decide (get r "cmplnt_num" = k)); cbn [length] in Hcount; lia.
Qed.

Lemma pass_loop_distinct_ids (l : list raw_record) :
  forall st, pass_inv st ->
    NoDup ((fun r => get r "cmplnt_num") <$> l) ->
    (forall r, r ∈ l -> get r "cmplnt_num" ∉ seen_ids st) ->
    skipped_duplicate (fst (pass_loop l st)) = skipped_duplicate st.
Proof.
  induction l as [|r l IH]; intros st Hinv Hnd Hfresh; [done|].
  cbn [fmap list_fmap] in Hnd. apply NoDup_cons in Hnd as [Hr Hnd].
  destruct (step_effect st r Hinv) as (st1 & E & _ & _).
  pose proof (step_inv st r Hinv) as Hinv1.
  pose proof (step_counters st r) as [_ Hc]. rewrite E in Hinv1, Hc. cbn [fst] in *.
  cbn [pass_loop]. rewrite E.
  assert (skipped_duplicate st1 = skipped_duplicate st /\
          (forall v, v ∈ seen_ids st1 -> v ∈ seen_ids st \/ v = get r "cmplnt_num"))
    as [Hd Hseen].
  { destruct (classify (seen_ids st) r) eqn:Hv.
    - destruct Hc as (_ & -> & _ & -> & _). by split; [|left].
    - apply classify_duplicate in Hv as [_ Hin].
      destruct (Hfresh r (list_elem_of_here _ _) Hin).
    - destruct Hc as (_ & -> & _ & -> & _). by split; [|left].
    - destruct Hc as (_ & -> & _ & ->). split; [done|].
      intros v Hin. apply elem_of_union in Hin as [Hin|Hin]; [right|by left].
      by apply elem_of_singleton in Hin. }
  rewrite IH; [done..|].
  intros r' Hr' Hin. apply Hseen in Hin as [Hin|Heq].
  - by apply (Hfresh r' (list_elem_of_further _ _ _ Hr')).
  - apply Hr. rewrite <- Heq. apply list_elem_of_fmap. by exists r'.
Qed.

(** X15. When the quality script reports no duplicate complaint ID, the
    cleaning pass rejects no record as a duplicate. *)
Theorem no_duplicates_reported_none_rejected
    (d : db) (rep : quality_report) (c : counters) :
  check_data_quality (complaints_2024 d) = Ok rep ->
  snd (clean_pass d) = Ok c ->
  dup_count rep = 0 ->
  duplicate c = 0.
Proof.
  intros Hrep Hc Hdup. rewrite clean_pass_spec in Hc. injection Hc as <-. cbn [duplicate].
  destruct (complaints_2024 d) as [|r0 coll] eqn:Hraw; [done|].
  destruct (check_data_quality_ok (r0 :: coll)) as (rows & q & _ & Hok); [done|].
  rewrite Hok in Hrep. injection Hrep as <-. cbn [dup_count] in Hdup.
  apply length_zero_iff_nil in Hdup.
  unfold after. rewrite pass_loop_distinct_ids; [done|apply initial_inv| |].
  - by apply no_duplicate_groups_NoDup.
  - intros r _. cbn. apply not_elem_of_empty.
Qed.

End QualityAndClean.

(** * The further properties at concrete inputs *)

Ltac in_list := repeat first [apply list_elem_of_here | apply list_elem_of_further].

Lemma clean_documents_well_formed_witness :
  let doc := cleaned_record queens_1 40.7 (-73.8) in
  dom doc = clean_keys /\
  (forall k, k ∈ text_fields -> exists s, doc !! k = Some (VStr s) /\ s <> "") /\
  doc !! "boro_nm" <> Some (VStr "(null)") /\
  (doc !! "cmplnt_fr_tm" = Some VNull \/ exists s, doc !! "cmplnt_fr_tm" = Some (VStr s)).
Proof.
  apply (clean_documents_well_formed (Db [queens_1] empty_clean)).
  apply list_elem_of_lookup. exists 0. vm_compute. reflexivity.
Defined.

Lemma valid_identifier_kept_witness :
  exists doc,
    doc ∈ docs (complaints_2024_clean
                  (fst (clean_2024_data (Db [queens_1; seven_first; seven_again] empty_clean))))
    /\ doc !! "cmplnt_num" = Some (of_raw (get seven_again "cmplnt_num")).
Proof.
  apply (valid_identifier_kept (Db [queens_1; seven_first; seven_again] empty_clean)).
  - cbn [complaints_2024]. in_list.
  - vm_compute. reflexivity.
Defined.

Lemma run_completes_unless_empty_witness :
  snd (clean_2024_data (Db [] empty_clean)) = Raise ZeroDivisionError /\
  exists rep,
    snd (clean_2024_data (Db [queens_1; null_borough] empty_clean)) = Ok rep /\
    snd (clean_pass (Db [queens_1; null_borough] empty_clean)) = Ok (counts rep) /\
    original_count (counts rep) - final_count (counts rep)
    = missing (counts rep) + invalid_coordinates (counts rep) + duplicate (counts rep).
Proof.
  split.
  - by apply (run_completes_unless_empty (Db [] empty_clean)).
  - by apply (run_completes_unless_empty (Db [queens_1; null_borough] empty_clean)).
Defined.

Lemma page_attempts_bounded_witness :
  calls (fst (fetch_page (flaky [queens_1]) max_retries 0 fresh)) <= 5 /\ 20 <= 20.
Proof.
  destruct (page_attempts_bounded (flaky [queens_1]) fresh) as (_ & Hle & es & Ht & Hs).
  split; [exact Hle|]. apply Hs.
  change (Sleep 20 ∈ trace fresh ++ es). rewrite <- Ht. vm_compute. in_list.
Defined.

Lemma indexes_iff_imported_witness :
  let run := download_2024_crime_data_robust (flaky [queens_1]) true 1 [] in
  snd run = Completed /\ 0 < length (collection_2024 (fst run)) /\
  exists es, trace (fst run) = es ++ [CreateIndexes] /\ CreateIndexes ∉ es.
Proof.
  cbn zeta.
  destruct (indexes_iff_imported (flaky [queens_1]) true 1 []) as [Hiff Hlast].
  assert (CreateIndexes ∈
            trace (fst (download_2024_crime_data_robust (flaky [queens_1]) true 1 []))) as Hin.
  { vm_compute. in_list. }
  destruct (proj1 Hiff Hin) as [Hs Hlen]. split; [exact Hs|]. split; [exact Hlen|].
  exact (Hlast Hin).
Defined.

Lemma running_means_progress_witness :
  0 + 1 * batch_size
  <= length (collection_2024 (fst (download_2024_crime_data_robust endless true 1 []))).
Proof.
  apply (running_means_progress endless true 1 []). vm_compute. reflexivity.
Defined.


Lemma quality_check_raises_iff_empty_witness :
  check_data_quality [] = Raise ZeroDivisionError /\
  exists rep,
    check_data_quality [queens_1; no_offence] = Ok rep /\
    total rep = 2 /\
    invalid_coords rep = count_where flagged_coordinates [queens_1; no_offence] /\
    dup_count rep = length (duplicate_groups [queens_1; no_offence]).
Proof.
  split.
  - by apply (quality_check_raises_iff_empty []).
  - by apply (quality_check_raises_iff_empty [queens_1; no_offence]).
Defined.

Lemma quality_flags_text_order_witness :
  flagged_coordinates queens_1 = true /\
  classify ∅ queens_1 = Accept 40.7 (-73.8) /\
  exists rep,
    check_data_quality [queens_1; seven_first] = Ok rep /\ invalid_coords rep = 2.
Proof.
  destruct (quality_flags_text_order [queens_1; seven_first]) as [Hflag Hall].
  split; [|split].
  - apply (Hflag queens_1 ".8"). vm_compute. reflexivity.
  - vm_compute. reflexivity.
  - destruct (check_data_quality [queens_1; seven_first]) as [rep|e] eqn:Hrep.
    + exists rep. split; [done|]. apply Hall; [|done].
      intros r Hr. apply elem_of_cons in Hr as [->|Hr].
      * exists ".8". vm_compute. reflexivity.
      * apply list_elem_of_singleton in Hr as ->. exists ".9". vm_compute. reflexivity.
    + vm_compute in Hrep. discriminate Hrep.
Defined.

Lemma quality_issues_predict_missing_witness :
  exists rep c,
    check_data_quality [queens_1; seven_first] = Ok rep /\
    snd (clean_pass (Db [queens_1; seven_first] empty_clean)) = Ok c /\
    (missing c = 0 <->
     (forall f, f ∈ essential_fields -> f ∉ issues rep) /\
     (forall r, r ∈ [queens_1; seven_first] -> get r "boro_nm" <> RStr "(null)")).
Proof.
  destruct (check_data_quality [queens_1; seven_first]) as [rep|e] eqn:Hrep;
    [|vm_compute in Hrep; discriminate Hrep].
  destruct (snd (clean_pass (Db [queens_1; seven_first] empty_clean))) as [c|e] eqn:Hc;
    [|vm_compute in Hc; discriminate Hc].
  exists rep, c. split; [done|]. split; [done|].
  exact (quality_issues_predict_missing (Db [queens_1; seven_first] empty_clean) rep c Hrep Hc).
Defined.

Lemma no_duplicates_reported_none_rejected_witness :
  exists rep c,
    check_data_quality [queens_1; seven_first] = Ok rep /\
    snd (clean_pass (Db [queens_1; seven_first] empty_clean)) = Ok c /\
    dup_count rep = 0 /\ duplicate c = 0.
Proof.
  destruct (check_data_quality [queens_1; seven_first]) as [rep|e] eqn:Hrep;
    [|vm_compute in Hrep; discriminate Hrep].
  destruct (snd (clean_pass (Db [queens_1; seven_first] empty_clean))) as [c|e] eqn:Hc;
    [|vm_compute in Hc; discriminate Hc].
  assert (dup_count rep = 0) as Hdup.
  { vm_compute in Hrep. injection Hrep as <-. reflexivity. }
  exists rep, c. split; [done|]. split; [done|]. split; [done|].
  exact (no_duplicates_reported_none_rejected
           (Db [queens_1; seven_first] empty_clean) rep c Hrep Hc Hdup).
Defined.
